(** * garmindl.py: the activity downloader, embedded and verified

    A shallow embedding of [download_activities] of [garmindl.py]: the
    computation of the file name of an activity, the resolution of the bytes
    to save (with the ZIP unwrapping of the [fit] format), the sequential
    batch loop with its three counters, and the summary.

    Python values are modelled as follows.
    - A [str] is the list of its Unicode code points ([N]); a [bytes] object
      is a [list byte].
    - The remote client, the [zipfile] library and the faults of the file
      system are collaborators of the program: they are fields of the record
      [Env], and every theorem holds for all of them.
    - The parts of the Unicode database and of the C library that the Python
      built-ins consult outside ASCII are the class [Platform].
    - The output directory is a finite map from paths to file contents. *)

From Stdlib Require Import ZArith NArith List Bool Lia Ascii String.
From Stdlib Require Import Strings.Byte DecimalN.
From stdpp Require Import base option list gmap.
Import ListNotations.

Local Open Scope N_scope.

(** ** Strings *)

Abbreviation str := (list N).
Abbreviation bytes := (list byte).

#[global] Instance byte_eq_decision : EqDecision byte := Byte.byte_eq_dec.

(** A literal of the source, as code points. *)
Definition lit (s : string) : str :=
  List.map N_of_ascii (list_ascii_of_string s).

(** What the built-ins read from the Unicode database for the code points
    above ASCII, and the one choice of the C library that the program
    observes. *)
Class Platform := {
  (** [str.isalnum] of a code point above 127 *)
  unicode_isalnum : N -> bool;
  (** the decimal value of a code point above 127 of category Nd
      ([\d] of [re], the digits [int] accepts) *)
  unicode_decimal : N -> option N;
  (** [str.lower]: the expansion of the character above 127 at index [i] of
      [s] (it depends on the context for the capital sigma only) *)
  unicode_lower : str -> nat -> str;
  (** whether [strftime] pads [%Y] to four digits (glibc does not, before
      Python 3.13) *)
  strftime_pads_year : bool
}.

Definition in_range (lo hi c : N) : bool := (lo <=? c) && (c <=? hi).

Definition ascii_digit (c : N) : bool := in_range 48 57 c.
Definition ascii_upper (c : N) : bool := in_range 65 90 c.
Definition ascii_lower (c : N) : bool := in_range 97 122 c.

(** ** The data of the program *)

(** An activity of the listing, with the keys whose values the program
    uses ([activityType] is read and never used); [None] is an absent key,
    for which [dict.get] gives the default. *)
Record Activity := {
  activityId : Z;
  activityName : option str;
  startTimeLocal : option str
}.

(** ** The collaborators *)

Inductive exn :=
| AuthenticationError
| TransportError
| BadZipFile
| ZipReadError
| KeyError
| OSError.

Inductive result (A : Type) :=
| Ok (a : A)
| Raised (e : exn).
Arguments Ok {A} a.
Arguments Raised {A} e.

(** The members of [client.ActivityDownloadFormat] the program uses. *)
Inductive DlFmt := GPX | TCX | ORIGINAL.

(** A member of an open archive: its name and what reading it gives. *)
Record ZipInfo := {
  zi_filename : str;
  zi_read : result bytes
}.

(** What happens when the program opens a path for writing and writes:
    nothing wrong, [open] raises, or [write] (or the close) raises after
    the first [n] bytes have reached the file. *)
Inductive WriteFault :=
| NoFault
| OpenFault
| WriteFaultAfter (n : nat).

Record Env := {
  login : result unit;
  get_activities_by_date : result (list Activity);
  download_activity : Z -> DlFmt -> result bytes;
  (** [zipfile.ZipFile(io.BytesIO(data))]: the members in the order of the
      central directory *)
  ZipFile : bytes -> result (list ZipInfo);
  write_fault : str -> bytes -> WriteFault
}.

(** ** What the program prints *)

Inductive Msg :=
| MsgLoginFailed (e : exn)
| MsgNoActivities
| MsgFound (n : nat)
| MsgLimiting (limit : Z)
| MsgSkipping (i total : nat) (name : str)
| MsgDownloading (i total : nat) (name date10 : str)
| MsgNoFitWarning
| MsgSaved (name : str)
| MsgError (id : Z) (e : exn)
| MsgFetchError (e : exn).

(** The files under the output directory, the three counters and the
    printed lines. *)
Record State := {
  files : gmap str bytes;
  downloaded : nat;
  skipped : nat;
  errors : nat;
  out : list Msg
}.

(** The summary of lines 161-168. *)
Record Summary := {
  total_activities : nat;
  total_downloaded : nat;
  total_skipped : nat;
  total_errors : nat
}.

Section Program.
Context `{P : Platform}.

(** ** Built-ins on strings *)

(** [c.isalnum()] *)
Definition isalnum (c : N) : bool :=
  if c <? 128 then ascii_digit c || ascii_upper c || ascii_lower c
  else unicode_isalnum c.

(** [c.isspace()]: the white space of CPython's [_PyUnicode_IsWhitespace]. *)
Definition isspace (c : N) : bool :=
  in_range 9 13 c || in_range 28 32 c || (c =? 133) || (c =? 160)
  || (c =? 5760) || in_range 8192 8202 c || (c =? 8232) || (c =? 8233)
  || (c =? 8239) || (c =? 8287) || (c =? 12288).

Fixpoint lstrip (s : str) : str :=
  match s with
  | c :: s' => if isspace c then lstrip s' else s
  | [] => []
  end.

Definition rstrip (s : str) : str := rev (lstrip (rev s)).

(** [s.strip()] *)
Definition strip (s : str) : str := rstrip (lstrip s).

(** [s.replace(a, b)] for one-character [a] and [b] *)
Definition replace (a b : N) (s : str) : str :=
  List.map (fun c => if c =? a then b else c) s.

Fixpoint lower_from (whole : str) (i : nat) (s : str) : str :=
  match s with
  | [] => []
  | c :: s' =>
      (if c <? 128 then [if ascii_upper c then c + 32 else c]
       else unicode_lower whole i) ++ lower_from whole (S i) s'
  end.

(** [s.lower()] *)
Definition lower (s : str) : str := lower_from s 0 s.

(** [s.endswith(suffix)] *)
Definition endswith (s suffix : str) : bool :=
  bool_decide (drop (length s - length suffix)%nat s = suffix).

(** [s.startswith(prefix)] *)
Definition startswith (s prefix : str) : bool :=
  bool_decide (take (length prefix) s = prefix).

(** ** [str] of an integer *)

Fixpoint uint_codes (d : Decimal.uint) : str :=
  match d with
  | Decimal.Nil => []
  | Decimal.D0 d => 48 :: uint_codes d
  | Decimal.D1 d => 49 :: uint_codes d
  | Decimal.D2 d => 50 :: uint_codes d
  | Decimal.D3 d => 51 :: uint_codes d
  | Decimal.D4 d => 52 :: uint_codes d
  | Decimal.D5 d => 53 :: uint_codes d
  | Decimal.D6 d => 54 :: uint_codes d
  | Decimal.D7 d => 55 :: uint_codes d
  | Decimal.D8 d => 56 :: uint_codes d
  | Decimal.D9 d => 57 :: uint_codes d
  end.

Definition str_of_N (n : N) : str := uint_codes (N.to_uint n).

(** [str(z)] for an [int] *)
Definition str_of_Z (z : Z) : str :=
  match z with
  | Z0 => str_of_N 0
  | Zpos p => str_of_N (Npos p)
  | Zneg p => 45 :: str_of_N (Npos p)
  end.

(** The decimal digits of [n], padded with zeros to [width]. *)
Definition zero_pad (width : nat) (n : N) : str :=
  let s := str_of_N n in
  repeat 48 (width - length s)%nat ++ s.

(** ** [datetime.strptime(s, "%Y-%m-%d")] and [strftime("%Y%m%d")] *)

(** The value of a decimal digit: [\d] of the regular expressions of
    [_strptime] matches exactly the characters that have one. *)
Definition decimal_value (c : N) : option N :=
  if c <? 128 then (if ascii_digit c then Some (c - 48) else None)
  else unicode_decimal c.

Definition is_d (c : N) : bool :=
  match decimal_value c with Some _ => true | None => false end.

(** The alternatives of [(?P<m>1[0-2]|0[1-9]|[1-9])] that match a prefix of
    [s], in the order the matcher tries them, each with the rest of [s]. *)
Definition match_m (s : str) : list (str * str) :=
  (match s with
   | 49 :: c :: r => if in_range 48 50 c then [([49; c], r)] else []
   | _ => []
   end) ++
  (match s with
   | 48 :: c :: r => if in_range 49 57 c then [([48; c], r)] else []
   | _ => []
   end) ++
  (match s with
   | c :: r => if in_range 49 57 c then [([c], r)] else []
   | _ => []
   end).

(** The same for [(?P<d>3[0-1]|[1-2]\d|0[1-9]|[1-9]| [1-9])]. *)
Definition match_d (s : str) : list (str * str) :=
  (match s with
   | 51 :: c :: r => if in_range 48 49 c then [([51; c], r)] else []
   | _ => []
   end) ++
  (match s with
   | c1 :: c2 :: r =>
       if in_range 49 50 c1 && is_d c2 then [([c1; c2], r)] else []
   | _ => []
   end) ++
  (match s with
   | 48 :: c :: r => if in_range 49 57 c then [([48; c], r)] else []
   | _ => []
   end) ++
  (match s with
   | c :: r => if in_range 49 57 c then [([c], r)] else []
   | _ => []
   end) ++
  (match s with
   | 32 :: c :: r => if in_range 49 57 c then [([32; c], r)] else []
   | _ => []
   end).

(** [format_regex.match(s)] for the format [%Y-%m-%d]: the groups [Y], [m],
    [d] of the first match in the order of the backtracking matcher, and what
    is left of [s] after it.  (The pattern is compiled with [IGNORECASE],
    which changes nothing for digits, the hyphen and the space.) *)
Definition regex_match (s : str) : option (str * str * str * str) :=
  match s with
  | y1 :: y2 :: y3 :: y4 :: 45 :: r =>
      if is_d y1 && is_d y2 && is_d y3 && is_d y4 then
        head (flat_map (fun '(m, r1) =>
                match r1 with
                | 45 :: r2 =>
                    List.map (fun '(d, rest) => ([y1; y2; y3; y4], m, d, rest))
                             (match_d r2)
                | _ => []
                end) (match_m r))
      else None
  | _ => None
  end.

(** [int(s)] on a group of the match: digits, after white space is
    stripped. *)
Definition int_of (s : str) : N :=
  fold_left (fun acc c => acc * 10 + default 0 (decimal_value c)) (strip s) 0.

Definition is_leap (y : N) : bool :=
  ((y mod 4 =? 0) && negb (y mod 100 =? 0)) || (y mod 400 =? 0).

Definition days_in_month (y m : N) : N :=
  match m with
  | 2 => if is_leap y then 29 else 28
  | 4 | 6 | 9 | 11 => 30
  | _ => 31
  end.

Record date := { year : N; month : N; day : N }.

(** [datetime.strptime(s, "%Y-%m-%d")]; [None] stands for [ValueError]: no
    match, unconverted data after the match, or a date that the [datetime]
    constructor refuses (year 0, February 30th). *)
Definition strptime (s : str) : option date :=
  match regex_match s with
  | Some (y, m, d, rest) =>
      match rest with
      | [] =>
          let y := int_of y in
          let m := int_of m in
          let d := int_of d in
          if (1 <=? y) && (y <=? 9999) && (1 <=? m) && (m <=? 12)
             && (1 <=? d) && (d <=? days_in_month y m)
          then Some {| year := y; month := m; day := d |}
          else None
      | _ :: _ => None
      end
  | None => None
  end.

(** [date_obj.strftime("%Y%m%d")] *)
Definition strftime (d : date) : str :=
  (if strftime_pads_year then zero_pad 4 (year d) else str_of_N (year d))
  ++ zero_pad 2 (month d) ++ zero_pad 2 (day d).

(** ** [os.path.join(a, b)] of [posixpath] *)
Definition path_join (a b : str) : str :=
  if startswith b [47] then b
  else if bool_decide (a = []) || endswith a [47] then a ++ b
  else a ++ 47 :: b.

(** ** The file name of an activity *)

Definition name_of (a : Activity) : str :=
  default (lit "Unnamed") (activityName a).

Definition date_of (a : Activity) : str :=
  default (lit "Unknown") (startTimeLocal a).

(** The characters the generator expression keeps. *)
Definition keeps (c : N) : bool :=
  isalnum c || (c =? 32) || (c =? 45) || (c =? 95).

(** Lines 101-102. *)
Definition safe_name (activity_name : str) : str :=
  replace 32 95 (strip (List.filter keeps activity_name)).

(** Lines 105-109: any exception of the parse gives the sentinel. *)
Definition date_str (activity_date : str) : str :=
  match strptime (take 10 activity_date) with
  | Some date_obj => strftime date_obj
  | None => lit "unknown_date"
  end.

(** Line 111. *)
Definition filename (a : Activity) (file_format : str) : str :=
  date_str (date_of a) ++ lit "_" ++ str_of_Z (activityId a) ++ lit "_"
  ++ safe_name (name_of a) ++ lit "." ++ file_format.

(** Line 112. *)
Definition filepath (output_dir : str) (a : Activity) (file_format : str)
  : str :=
  path_join output_dir (filename a file_format).

(** ** Resolution of the bytes to save (lines 124-148) *)

(** [zip_ref.namelist()] *)
Definition namelist (z : list ZipInfo) : list str :=
  List.map zi_filename z.

(** [zip_ref.read(name)]: [zipfile] finds the member through its dictionary
    [NameToInfo], which the reading of the central directory fills in order,
    so the last member of that name is the one read. *)
Definition zip_read (z : list ZipInfo) (name : str) : result bytes :=
  match List.find (fun e => bool_decide (zi_filename e = name)) (rev z) with
  | Some e => zi_read e
  | None => Raised KeyError
  end.

Definition is_fit_name (f : str) : bool := endswith (lower f) (lit ".fit").

(** The signature ['PK'] *)
Definition PK : bytes := ["P"%byte; "K"%byte].

(** Lines 133-146, on the payload of the download; the first component is
    what is printed. *)
Definition unwrap_fit (zipfile : bytes -> result (list ZipInfo))
    (zip_data : bytes) : list Msg * result bytes :=
  if bool_decide (take 2 zip_data = PK) then
    match zipfile zip_data with
    | Ok zip_ref =>
        let fit_files := List.filter is_fit_name (namelist zip_ref) in
        match fit_files with
        | f :: _ => ([], zip_read zip_ref f)
        | [] => ([MsgNoFitWarning], Ok zip_data)
        end
    | Raised e => ([], Raised e)
    end
  else ([], Ok zip_data).

Definition resolve (E : Env) (file_format : str) (activity_id : Z)
  : list Msg * result bytes :=
  let f := lower file_format in
  if bool_decide (f = lit "gpx") then
    ([], download_activity E activity_id GPX)
  else if bool_decide (f = lit "tcx") then
    ([], download_activity E activity_id TCX)
  else if bool_decide (f = lit "fit") then
    match download_activity E activity_id ORIGINAL with
    | Ok zip_data => unwrap_fit (ZipFile E) zip_data
    | Raised e => ([], Raised e)
    end
  else ([], download_activity E activity_id ORIGINAL).

(** ** The batch loop (lines 89-159) *)

(** Lines 151-152: [open(filepath, 'wb')] creates the file empty, [write]
    fills it; when one of them raises, what has been written stays. *)
Definition write_file (E : Env) (path : str) (data : bytes)
    (fs : gmap str bytes) : result unit * gmap str bytes :=
  match write_fault E path data with
  | NoFault => (Ok tt, <[path := data]> fs)
  | OpenFault => (Raised OSError, fs)
  | WriteFaultAfter n => (Raised OSError, <[path := take n data]> fs)
  end.

(** One iteration of the loop, for the [i]-th activity of [total]. *)
Definition process_activity (E : Env) (output_dir file_format : str)
    (total i : nat) (a : Activity) (st : State) : State :=
  let fname := filename a file_format in
  let path := path_join output_dir fname in
  match files st !! path with
  | Some _ =>
      {| files := files st; downloaded := downloaded st;
         skipped := S (skipped st); errors := errors st;
         out := out st ++ [MsgSkipping i total fname] |}
  | None =>
      let line := MsgDownloading i total (name_of a) (take 10 (date_of a)) in
      match resolve E file_format (activityId a) with
      | (warn, Ok data) =>
          match write_file E path data (files st) with
          | (Ok _, fs) =>
              {| files := fs; downloaded := S (downloaded st);
                 skipped := skipped st; errors := errors st;
                 out := out st ++ line :: warn ++ [MsgSaved fname] |}
          | (Raised e, fs) =>
              {| files := fs; downloaded := downloaded st;
                 skipped := skipped st; errors := S (errors st);
                 out := out st ++ line :: warn
                        ++ [MsgError (activityId a) e] |}
          end
      | (warn, Raised e) =>
          {| files := files st; downloaded := downloaded st;
             skipped := skipped st; errors := S (errors st);
             out := out st ++ line :: warn ++ [MsgError (activityId a) e] |}
      end
  end.

(** [for i, activity in enumerate(activities, 1)] *)
Fixpoint run_loop (E : Env) (output_dir file_format : str) (total i : nat)
    (activities : list Activity) (st : State) : State :=
  match activities with
  | [] => st
  | a :: rest =>
      run_loop E output_dir file_format total (S i) rest
        (process_activity E output_dir file_format total i a st)
  end.

(** ** The limit (lines 85-87) *)

(** [activities[:limit]] *)
Definition slice_to (limit : Z) (activities : list Activity)
  : list Activity :=
  if (0 <=? limit)%Z then take (Z.to_nat limit) activities
  else take (Z.to_nat (Z.of_nat (length activities) + limit)) activities.

(** [limit and limit < len(activities)]: [None] and [0] are falsy. *)
Definition limit_applies (limit : option Z) (activities : list Activity)
  : bool :=
  match limit with
  | Some l => negb (l =? 0)%Z && (l <? Z.of_nat (length activities))%Z
  | None => false
  end.

Definition apply_limit (limit : option Z) (activities : list Activity)
  : list Activity :=
  match limit with
  | Some l => if limit_applies limit activities then slice_to l activities
              else activities
  | None => activities
  end.

(** ** [download_activities] *)

Definition init_state (fs : gmap str bytes) (printed : list Msg) : State :=
  {| files := fs; downloaded := 0; skipped := 0; errors := 0;
     out := printed |}.

Definition summary_of (total : nat) (st : State) : Summary :=
  {| total_activities := total; total_downloaded := downloaded st;
     total_skipped := skipped st; total_errors := errors st |}.

(** The lines after the listing: limit, loop and summary. *)
Definition run_batch (E : Env) (output_dir file_format : str)
    (limit : option Z) (listed : list Activity) (fs : gmap str bytes)
  : State * Summary :=
  let activities := apply_limit limit listed in
  let printed :=
    MsgFound (length listed) ::
    (if limit_applies limit listed
     then [MsgLimiting (default 0%Z limit)] else []) in
  let st := run_loop E output_dir file_format (length activities) 1
              activities (init_state fs printed) in
  (st, summary_of (length activities) st).

(** The whole function, from the login on, on the files [fs] of the output
    directory: the files it leaves, what it prints, and the summary when it
    reaches it.  The [try] of line 71 spans the listing, the loop and the
    summary.  For the activities of the record [Activity] (an integer
    identifier, a name and a start time that are strings or absent) nothing
    in the loop raises outside the inner [try], so the handler of lines
    170-171 is reached from the listing call only.  A listing with other
    values under these keys, or an [activityType] that is not a dictionary,
    and a [print] that raises, are outside this model; so is the creation of
    the directory (line 45). *)
Definition download_activities (E : Env) (output_dir file_format : str)
    (limit : option Z) (fs : gmap str bytes)
  : gmap str bytes * list Msg * option Summary :=
  match login E with
  | Raised e => (fs, [MsgLoginFailed e], None)
  | Ok _ =>
      match get_activities_by_date E with
      | Raised e => (fs, [MsgFetchError e], None)
      | Ok [] => (fs, [MsgNoActivities], None)
      | Ok listed =>
          let '(st, s) := run_batch E output_dir file_format limit listed fs in
          (files st, out st, Some s)
      end
  end.

End Program.

(** ** Words used by the statements *)

Section Vocabulary.
Context `{P : Platform}.

(** The characters a file name is made of: alphanumerics, the hyphen, the
    underscore and the dot of the extension. *)
Definition filename_char (c : N) : bool :=
  isalnum c || (c =? 45) || (c =? 95) || (c =? 46).

(** The characters of a sanitized name: as above, without the dot. *)
Definition name_char (c : N) : bool :=
  isalnum c || (c =? 45) || (c =? 95).

(** Resolving the bytes of [a] or writing them raises. *)
Definition attempt_fails (E : Env) (output_dir file_format : str)
    (a : Activity) : bool :=
  match resolve E file_format (activityId a) with
  | (_, Ok data) =>
      match write_fault E (filepath output_dir a file_format) data with
      | NoFault => false
      | _ => true
      end
  | (_, Raised _) => true
  end.

(** The sum of the three counters. *)
Definition handled (st : State) : nat :=
  (downloaded st + skipped st + errors st)%nat.

End Vocabulary.

(** ** Concrete inputs *)

(** A platform that knows ASCII only: no letter, digit or case above 127. *)
Definition ascii_platform : Platform :=
  {| unicode_isalnum := fun _ => false;
     unicode_decimal := fun _ => None;
     unicode_lower := fun s i => match s !! i with Some c => [c] | None => [] end;
     strftime_pads_year := true |}.

Definition activity (id : Z) (name date : string) : Activity :=
  {| activityId := id; activityName := Some (lit name);
     startTimeLocal := Some (lit date) |}.

Definition morning_run : Activity :=
  activity 101 "Morning Run" "2024-03-05 07:30:00".
Definition lunch_ride : Activity :=
  activity 102 "Lunch Ride" "2024-03-06 12:00:00".
Definition evening_walk : Activity :=
  activity 103 "Evening Walk" "2024-03-07 19:15:00".
Definition trail_run : Activity :=
  activity 106 "  Trail Run! (5k)  " "2024-03-05 07:30:00".
Definition undated : Activity :=
  activity 104 "Swim" "not-a-date".

(** A listing of ten activities, numbered from 1 to 10. *)
Definition ten_activities : list Activity :=
  List.map (fun id => activity id "Run" "2024-03-05 07:30:00")
           [1; 2; 3; 4; 5; 6; 7; 8; 9; 10]%Z.

Definition three_bytes : bytes := ["a"%byte; "b"%byte; "c"%byte].

(** A service where everything works. *)
Definition good_env (listed : list Activity) : Env :=
  {| login := Ok tt;
     get_activities_by_date := Ok listed;
     download_activity := fun _ _ => Ok three_bytes;
     ZipFile := fun _ => Raised BadZipFile;
     write_fault := fun _ _ => NoFault |}.

(** A service whose downloads of activity [bad] raise a transport fault. *)
Definition faulty_env (listed : list Activity) (bad : Z) : Env :=
  {| login := Ok tt;
     get_activities_by_date := Ok listed;
     download_activity := fun id _ =>
       if (id =? bad)%Z then Raised TransportError else Ok three_bytes;
     ZipFile := fun _ => Raised BadZipFile;
     write_fault := fun _ _ => NoFault |}.

(** A disk that fails every write after the first byte. *)
Definition full_disk_env (listed : list Activity) : Env :=
  {| login := Ok tt;
     get_activities_by_date := Ok listed;
     download_activity := fun _ _ => Ok three_bytes;
     ZipFile := fun _ => Raised BadZipFile;
     write_fault := fun _ _ => WriteFaultAfter 1 |}.

(** Payloads with the ZIP signature, and the archives a library finds in
    them. *)
Definition zip_payload : bytes := PK ++ three_bytes.

Definition fit_bytes : bytes := ["F"%byte; "I"%byte; "T"%byte].
Definition other_bytes : bytes := ["x"%byte].

Definition one_fit : list ZipInfo :=
  [ {| zi_filename := lit "activity.fit"; zi_read := Ok fit_bytes |} ].

Definition no_fit : list ZipInfo :=
  [ {| zi_filename := lit "metadata.json"; zi_read := Ok other_bytes |} ].

(** An archive where a later member repeats the name of the first. *)
Definition twice_fit : list ZipInfo :=
  [ {| zi_filename := lit "activity.fit"; zi_read := Ok fit_bytes |};
    {| zi_filename := lit "activity.fit"; zi_read := Ok other_bytes |} ].

Definition zip_env (archive : list ZipInfo) (listed : list Activity) : Env :=
  {| login := Ok tt;
     get_activities_by_date := Ok listed;
     download_activity := fun _ _ => Ok zip_payload;
     ZipFile := fun _ => Ok archive;
     write_fault := fun _ _ => NoFault |}.

(** ** Words for a second run *)

Section SecondRun.
Context `{P : Platform}.

(** The attempt for [a] fails and leaves nothing at the path: the
    resolution raises, or [open] does. *)
Definition leaves_no_file (E : Env) (output_dir file_format : str)
    (a : Activity) : bool :=
  match resolve E file_format (activityId a) with
  | (_, Ok data) =>
      match write_fault E (filepath output_dir a file_format) data with
      | OpenFault => true
      | _ => false
      end
  | (_, Raised _) => true
  end.

(** How many of the activities have no file. *)
Definition missing (output_dir file_format : str) (fs : gmap str bytes)
    (l : list Activity) : nat :=
  length (List.filter
            (fun a => bool_decide (fs !! filepath output_dir a file_format
                                   = None)) l).

End SecondRun.

(** ** Words for the printed lines *)

(** The counter [[i/total]] of a progress line. *)
Definition progress (m : Msg) : option (nat * nat) :=
  match m with
  | MsgSkipping i total _ => Some (i, total)
  | MsgDownloading i total _ _ => Some (i, total)
  | _ => None
  end.

Definition is_skipping (m : Msg) : bool :=
  match m with MsgSkipping _ _ _ => true | _ => false end.

Definition is_saved (m : Msg) : bool :=
  match m with MsgSaved _ => true | _ => false end.

Definition is_error (m : Msg) : bool :=
  match m with MsgError _ _ => true | _ => false end.

(** How many of the lines are of a kind. *)
Definition lines (kind : Msg -> bool) (printed : list Msg) : nat :=
  length (List.filter kind printed).

(** ** The dates of the command line *)

Section CommandLine.
Context `{P : Platform}.

(** [parse_date] (lines 22-27): the date, or the message of the
    [ArgumentTypeError] it raises.  The string is parsed whole, not cut to
    ten characters as the start time of an activity is. *)
Definition parse_date (date_string : str) : date + str :=
  match strptime date_string with
  | Some d => inl d
  | None =>
      inr (lit "Invalid date format: " ++ date_string
           ++ lit ". Use YYYY-MM-DD")
  end.

(** [d.strftime("%Y-%m-%d")], the form in which lines 74-75 pass the two
    ends of the range to the listing. *)
Definition strftime_iso (d : date) : str :=
  (if strftime_pads_year then zero_pad 4 (year d) else str_of_N (year d))
  ++ lit "-" ++ zero_pad 2 (month d) ++ lit "-" ++ zero_pad 2 (day d).

(** The date as [YYYY-MM-DD], every field padded with zeros. *)
Definition isoformat (d : date) : str :=
  zero_pad 4 (year d) ++ lit "-" ++ zero_pad 2 (month d) ++ lit "-"
  ++ zero_pad 2 (day d).

(** The date as [YYYYMMDD]. *)
Definition compact (d : date) : str :=
  zero_pad 4 (year d) ++ zero_pad 2 (month d) ++ zero_pad 2 (day d).

(** A date the [datetime] constructor accepts. *)
Definition valid_date (d : date) : bool :=
  (1 <=? year d) && (year d <=? 9999) && (1 <=? month d) && (month d <=? 12)
  && (1 <=? day d) && (day d <=? days_in_month (year d) (month d)).

(** The matches of the month, the hyphen and the day in a string, in the
    order of the matcher: what [regex_match] does after the year. *)
Definition tail_matches (s : str) : list (str * str * str) :=
  flat_map (fun '(m, r1) =>
              match r1 with
              | 45 :: r2 =>
                  List.map (fun '(d, rest) => (m, d, rest)) (match_d r2)
              | _ => []
              end) (match_m s).

(** The numbers below [n]. *)
Definition below (n : N) : list N :=
  List.map N.of_nat (seq 0 (N.to_nat n)).

(** Four digits that read back as [y], with no padding from 1000 on. *)
Definition year_reads_back (y : N) : bool :=
  match zero_pad 4 y with
  | [a; b; c; e] =>
      ascii_digit a && ascii_digit b && ascii_digit c && ascii_digit e
      && (int_of [a; b; c; e] =? y)
      && ((y <? 1000) || bool_decide (str_of_N y = [a; b; c; e]))
  | _ => false
  end.

(** A month and a day, each of two digits, that the matcher finds first and
    reads back. *)
Definition month_day_read_back (m d : N) : bool :=
  negb ((1 <=? m) && (1 <=? d))
  || (bool_decide (head (tail_matches (zero_pad 2 m ++ 45 :: zero_pad 2 d))
                   = Some (zero_pad 2 m, zero_pad 2 d, []))
      && (int_of (zero_pad 2 m) =? m) && (int_of (zero_pad 2 d) =? d)
      && (length (zero_pad 2 m) =? 2)%nat && (length (zero_pad 2 d) =? 2)%nat).

End CommandLine.

(** More concrete inputs: a service that sends a payload with the ZIP
    signature that no library opens, and two dates. *)
Definition corrupt_zip_env (listed : list Activity) : Env :=
  {| login := Ok tt;
     get_activities_by_date := Ok listed;
     download_activity := fun _ _ => Ok zip_payload;
     ZipFile := fun _ => Raised BadZipFile;
     write_fault := fun _ _ => NoFault |}.

Definition leap_run : Activity :=
  activity 105 "Leap Run" "2024-02-29 10:00:00".

Definition leap_day : date := {| year := 2024; month := 2; day := 29 |}.

Definition old_day : date := {| year := 999; month := 12; day := 31 |}.

(** * Properties *)

Section Properties.
Context `{P : Platform}.

(** ** Characters of a file name *)

Lemma ascii_digit_isalnum (c : N) : ascii_digit c = true -> isalnum c = true.
Proof.
  unfold isalnum, ascii_digit, in_range. intros H.
  apply andb_true_iff in H as [H1 H2].
  apply N.leb_le in H1, H2.
  assert (Hlt : (c <? 128) = true) by (apply N.ltb_lt; lia).
  rewrite Hlt. unfold ascii_digit, in_range.
  apply N.leb_le in H1, H2. now rewrite H1, H2.
Qed.

Lemma name_char_filename_char (c : N) :
  name_char c = true -> filename_char c = true.
Proof.
  unfold name_char, filename_char. intros H. now rewrite H.
Qed.

Lemma digit_filename_char (c : N) :
  ascii_digit c = true -> filename_char c = true.
Proof.
  intros H. unfold filename_char. now rewrite (ascii_digit_isalnum c H).
Qed.

Lemma uint_codes_digits (d : Decimal.uint) :
  Forall (fun c => ascii_digit c = true) (uint_codes d).
Proof.
  induction d; simpl; constructor; auto.
Qed.

Lemma str_of_N_chars (n : N) :
  Forall (fun c => filename_char c = true) (str_of_N n).
Proof.
  unfold str_of_N.
  eapply Forall_impl; [apply uint_codes_digits|].
  intros c Hc. now apply digit_filename_char.
Qed.

Lemma str_of_Z_chars (z : Z) :
  Forall (fun c => filename_char c = true) (str_of_Z z).
Proof.
  destruct z; simpl; try apply str_of_N_chars.
  constructor; [reflexivity | apply str_of_N_chars].
Qed.

Lemma zero_pad_chars (w : nat) (n : N) :
  Forall (fun c => filename_char c = true) (zero_pad w n).
Proof.
  unfold zero_pad. apply Forall_app. split.
  - apply Forall_forall. intros c Hc.
    apply list_elem_of_In, repeat_spec in Hc. subst c. reflexivity.
  - apply str_of_N_chars.
Qed.

Lemma strftime_chars (d : date) :
  Forall (fun c => filename_char c = true) (strftime d).
Proof.
  unfold strftime. apply Forall_app. split.
  - destruct strftime_pads_year; [apply zero_pad_chars | apply str_of_N_chars].
  - apply Forall_app. split; apply zero_pad_chars.
Qed.

Lemma date_str_chars (s : str) :
  Forall (fun c => filename_char c = true) (date_str s).
Proof.
  unfold date_str. destruct (strptime (take 10 s)).
  - apply strftime_chars.
  - apply Forall_forall. intros c Hc. apply list_elem_of_In in Hc.
    vm_compute in Hc.
    repeat (destruct Hc as [<- | Hc]; [reflexivity|]). destruct Hc.
Qed.

Lemma lstrip_Forall (Q : N -> Prop) (s : str) :
  Forall Q s -> Forall Q (lstrip s).
Proof.
  induction 1 as [|c s Hc Hs IH]; simpl; [constructor|].
  destruct (isspace c); [exact IH | now constructor].
Qed.

Lemma strip_Forall (Q : N -> Prop) (s : str) :
  Forall Q s -> Forall Q (strip s).
Proof.
  intros H. unfold strip, rstrip.
  apply Forall_rev, lstrip_Forall, Forall_rev, lstrip_Forall, H.
Qed.

Lemma filter_keeps (s : str) :
  Forall (fun c => keeps c = true) (List.filter keeps s).
Proof.
  apply Forall_forall. intros c Hc.
  apply list_elem_of_In, filter_In in Hc. tauto.
Qed.

Lemma replace_space_name_char (c : N) :
  keeps c = true -> name_char (if c =? 32 then 95 else c) = true.
Proof.
  unfold keeps, name_char. intros H.
  destruct (c =? 32) eqn:E32; [now rewrite orb_true_r|].
  rewrite orb_false_r in H. exact H.
Qed.

Lemma safe_name_chars (name : str) :
  Forall (fun c => name_char c = true) (safe_name name).
Proof.
  unfold safe_name, replace.
  assert (H := strip_Forall _ _ (filter_keeps name)).
  induction H as [|c s Hc Hs IH]; simpl; constructor; auto.
  now apply replace_space_name_char.
Qed.

(** ** One iteration of the loop *)

(** Case analysis along the branches of [process_activity]. *)
Ltac process_cases E output_dir file_format a st :=
  unfold process_activity, attempt_fails, filepath, write_file;
  destruct (files st !! path_join output_dir (filename a file_format))
    as [existing|] eqn:Hexists;
  [| destruct (resolve E file_format (activityId a)) as [warn [data|e]];
     [destruct (write_fault E
                  (path_join output_dir (filename a file_format)) data)
        as [| |n] eqn:Hfault |] ];
  simpl.

Lemma process_handled (E : Env) (output_dir file_format : str)
    (total i : nat) (a : Activity) (st : State) :
  handled (process_activity E output_dir file_format total i a st)
  = S (handled st).
Proof.
  unfold handled. process_cases E output_dir file_format a st; lia.
Qed.

Lemma process_errors (E : Env) (output_dir file_format : str)
    (total i : nat) (a : Activity) (st : State) :
  errors (process_activity E output_dir file_format total i a st)
  = match files st !! filepath output_dir a file_format with
    | Some _ => errors st
    | None => if attempt_fails E output_dir file_format a
              then S (errors st) else errors st
    end.
Proof.
  process_cases E output_dir file_format a st; reflexivity.
Qed.

Lemma process_files_mono (E : Env) (output_dir file_format : str)
    (total i : nat) (a : Activity) (st : State) (p : str) :
  is_Some (files st !! p) ->
  is_Some (files (process_activity E output_dir file_format total i a st)
             !! p).
Proof.
  intros Hp. process_cases E output_dir file_format a st; auto;
    apply lookup_insert_is_Some';  auto.
Qed.

(** An iteration that counts no error leaves a file at the path. *)
Lemma process_no_error_file (E : Env) (output_dir file_format : str)
    (total i : nat) (a : Activity) (st : State) :
  errors (process_activity E output_dir file_format total i a st)
  = errors st ->
  is_Some (files (process_activity E output_dir file_format total i a st)
             !! filepath output_dir a file_format).
Proof.
  unfold filepath at 1.
  process_cases E output_dir file_format a st; intros Herr; try lia.
  - rewrite Hexists. eauto.
  - rewrite lookup_insert_eq. eauto.
Qed.

Lemma process_errors_le (E : Env) (output_dir file_format : str)
    (total i : nat) (a : Activity) (st : State) :
  (errors st
   <= errors (process_activity E output_dir file_format total i a st))%nat.
Proof.
  process_cases E output_dir file_format a st; lia.
Qed.

(** An activity whose file is there is skipped and nothing else changes. *)
Lemma process_existing (E : Env) (output_dir file_format : str)
    (total i : nat) (a : Activity) (st : State) :
  is_Some (files st !! filepath output_dir a file_format) ->
  process_activity E output_dir file_format total i a st
  = {| files := files st; downloaded := downloaded st;
       skipped := S (skipped st); errors := errors st;
       out := out st ++ [MsgSkipping i total (filename a file_format)] |}.
Proof.
  intros [b Hb]. unfold process_activity, filepath in *. now rewrite Hb.
Qed.

(** An attempt that goes through saves a file and counts a download. *)
Lemma process_downloads (E : Env) (output_dir file_format : str)
    (total i : nat) (a : Activity) (st : State) :
  files st !! filepath output_dir a file_format = None ->
  attempt_fails E output_dir file_format a = false ->
  let st' := process_activity E output_dir file_format total i a st in
  (exists data,
     files st' = <[filepath output_dir a file_format := data]> (files st))
  /\ downloaded st' = S (downloaded st)
  /\ skipped st' = skipped st
  /\ errors st' = errors st.
Proof.
  intros Habsent Hok st'. subst st'. revert Hok. unfold filepath in Habsent.
  process_cases E output_dir file_format a st;
    try congruence; intros Hok; try discriminate; eauto.
Qed.

(** A resolution that raises leaves the files and counts an error. *)
Lemma process_resolve_raises (E : Env) (output_dir file_format : str)
    (total i : nat) (a : Activity) (st : State) (warn : list Msg) (e : exn) :
  files st !! filepath output_dir a file_format = None ->
  resolve E file_format (activityId a) = (warn, Raised e) ->
  let st' := process_activity E output_dir file_format total i a st in
  files st' = files st
  /\ downloaded st' = downloaded st
  /\ skipped st' = skipped st
  /\ errors st' = S (errors st).
Proof.
  intros Habsent Hres st'. subst st'.
  unfold process_activity, filepath in *. now rewrite Habsent, Hres.
Qed.

(** ** The loop *)

Lemma run_loop_app (E : Env) (output_dir file_format : str) (total : nat)
    (l1 l2 : list Activity) (i : nat) (st : State) :
  run_loop E output_dir file_format total i (l1 ++ l2) st
  = run_loop E output_dir file_format total (i + length l1) l2
      (run_loop E output_dir file_format total i l1 st).
Proof.
  revert i st. induction l1 as [|a l1 IH]; intros i st; simpl.
  - now rewrite Nat.add_0_r.
  - rewrite IH. f_equal. lia.
Qed.

Lemma run_loop_handled (E : Env) (output_dir file_format : str) (total : nat)
    (l : list Activity) (i : nat) (st : State) :
  handled (run_loop E output_dir file_format total i l st)
  = (handled st + length l)%nat.
Proof.
  revert i st. induction l as [|a l IH]; intros i st; simpl; [lia|].
  rewrite IH, process_handled. lia.
Qed.

Lemma run_loop_errors_le (E : Env) (output_dir file_format : str)
    (total : nat) (l : list Activity) (i : nat) (st : State) :
  (errors st <= errors (run_loop E output_dir file_format total i l st))%nat.
Proof.
  revert i st. induction l as [|a l IH]; intros i st; simpl; [lia|].
  etransitivity; [|apply IH]. apply process_errors_le.
Qed.

Lemma run_loop_files_mono (E : Env) (output_dir file_format : str)
    (total : nat) (l : list Activity) (i : nat) (st : State) (p : str) :
  is_Some (files st !! p) ->
  is_Some (files (run_loop E output_dir file_format total i l st) !! p).
Proof.
  revert i st. induction l as [|a l IH]; intros i st Hp; simpl; [exact Hp|].
  apply IH. now apply process_files_mono.
Qed.

(** A loop that counts no error leaves a file for every activity. *)
Lemma run_loop_no_error_files (E : Env) (output_dir file_format : str)
    (total : nat) (l : list Activity) (i : nat) (st : State) :
  errors (run_loop E output_dir file_format total i l st) = errors st ->
  Forall (fun a =>
            is_Some (files (run_loop E output_dir file_format total i l st)
                       !! filepath output_dir a file_format)) l.
Proof.
  revert i st. induction l as [|a l IH]; intros i st Herr; simpl in *;
    constructor.
  - apply run_loop_files_mono, process_no_error_file.
    pose proof (process_errors_le E output_dir file_format total i a st).
    pose proof (run_loop_errors_le E output_dir file_format total l (S i)
                  (process_activity E output_dir file_format total i a st)).
    lia.
  - apply IH.
    pose proof (process_errors_le E output_dir file_format total i a st).
    pose proof (run_loop_errors_le E output_dir file_format total l (S i)
                  (process_activity E output_dir file_format total i a st)).
    lia.
Qed.

(** When every file is there, the loop skips every activity. *)
Lemma run_loop_all_existing (E : Env) (output_dir file_format : str)
    (total : nat) (l : list Activity) (i : nat) (st : State) :
  Forall (fun a => is_Some (files st !! filepath output_dir a file_format))
         l ->
  exists printed,
    run_loop E output_dir file_format total i l st
    = {| files := files st; downloaded := downloaded st;
         skipped := (skipped st + length l)%nat; errors := errors st;
         out := printed |}.
Proof.
  revert i st. induction l as [|a l IH]; intros i st Hall; simpl.
  - exists (out st). destruct st; simpl. f_equal. lia.
  - inversion Hall as [|? ? Ha Hl]; subst.
    rewrite (process_existing _ _ _ _ _ _ _ Ha).
    destruct (IH (S i)
      {| files := files st; downloaded := downloaded st;
         skipped := S (skipped st); errors := errors st;
         out := out st ++ [MsgSkipping i total (filename a file_format)] |}
      Hl) as [printed Hrun].
    exists printed. rewrite Hrun. simpl. f_equal. lia.
Qed.

(** ** Resolution *)

Lemma resolve_fit (E : Env) (file_format : str) (id : Z) :
  lower file_format = lit "fit" ->
  resolve E file_format id
  = match download_activity E id ORIGINAL with
    | Ok zip_data => unwrap_fit (ZipFile E) zip_data
    | Raised e => ([], Raised e)
    end.
Proof.
  intros Hfit. unfold resolve. rewrite Hfit.
  rewrite (bool_decide_eq_false_2 (lit "fit" = lit "gpx"))
    by (vm_compute; discriminate).
  rewrite (bool_decide_eq_false_2 (lit "fit" = lit "tcx"))
    by (vm_compute; discriminate).
  now rewrite (bool_decide_eq_true_2 (lit "fit" = lit "fit")).
Qed.

(** A download that raises for every format token makes the resolution
    raise, whatever the format asked for. *)
Lemma resolve_download_raises (E : Env) (file_format : str) (id : Z)
    (e : exn) :
  (forall token, download_activity E id token = Raised e) ->
  resolve E file_format id = ([], Raised e).
Proof.
  intros Hraise. unfold resolve.
  repeat case_bool_decide; now rewrite Hraise.
Qed.

Lemma find_first (A : Type) (f : A -> bool) (l1 l2 : list A) (x : A) :
  Forall (fun y => f y = false) l1 -> f x = true ->
  List.find f (l1 ++ x :: l2) = Some x.
Proof.
  induction 1 as [|y l1 Hy Hl1 IH]; intros Hx; simpl.
  - now rewrite Hx.
  - rewrite Hy. now apply IH.
Qed.

(** Reading by name gives a member that no later member shadows. *)
Lemma zip_read_unshadowed (pre post : list ZipInfo) (e : ZipInfo) :
  Forall (fun x => zi_filename x <> zi_filename e) post ->
  zip_read (pre ++ e :: post) (zi_filename e) = zi_read e.
Proof.
  intros Hpost. unfold zip_read.
  rewrite rev_app_distr. simpl. rewrite <- app_assoc. simpl.
  rewrite (find_first _ _ (rev post) (rev pre) e); [reflexivity| |].
  - apply Forall_rev.
    eapply Forall_impl; [exact Hpost|]. intros x Hx. simpl in Hx.
    now apply bool_decide_eq_false_2.
  - now apply bool_decide_eq_true_2.
Qed.

Lemma filter_fit_first (pre post : list ZipInfo) (e : ZipInfo) :
  Forall (fun x => is_fit_name (zi_filename x) = false) pre ->
  is_fit_name (zi_filename e) = true ->
  exists others,
    List.filter is_fit_name (namelist (pre ++ e :: post))
    = zi_filename e :: others.
Proof.
  induction 1 as [|y pre Hy Hpre IH]; intros He; simpl.
  - rewrite He. eauto.
  - rewrite Hy. now apply IH.
Qed.

Lemma filter_fit_none (archive : list ZipInfo) :
  Forall (fun x => is_fit_name (zi_filename x) = false) archive ->
  List.filter is_fit_name (namelist archive) = [].
Proof.
  induction 1 as [|y l Hy Hl IH]; simpl; [reflexivity|].
  now rewrite Hy.
Qed.

Lemma startswith_sentinel (rest : str) :
  startswith (lit "unknown_date" ++ lit "_" ++ rest) (lit "unknown_date_")
  = true.
Proof.
  unfold startswith. apply bool_decide_eq_true_2. reflexivity.
Qed.

(** The parser is lenient: months and days of one digit, and a day padded
    with a space, are dates for it; the day must exist in the month. *)
Example strptime_accepts_short_fields :
  strptime (lit "2024-3-5") = Some {| year := 2024; month := 3; day := 5 |}
  /\ strptime (lit "2024-03- 5")
     = Some {| year := 2024; month := 3; day := 5 |}
  /\ strptime (lit "2023-02-29") = None
  /\ strptime (lit "2024-1-123") = None.
Proof. repeat split. Qed.

Lemma download_activities_batch (E : Env) (output_dir file_format : str)
    (limit : option Z) (fs : gmap str bytes) (u : unit)
    (listed : list Activity) :
  login E = Ok u -> get_activities_by_date E = Ok listed -> listed <> [] ->
  download_activities E output_dir file_format limit fs
  = (files (fst (run_batch E output_dir file_format limit listed fs)),
     out (fst (run_batch E output_dir file_format limit listed fs)),
     Some (snd (run_batch E output_dir file_format limit listed fs))).
Proof.
  intros Hlogin Hlist Hne. unfold download_activities.
  rewrite Hlogin, Hlist. destruct listed; [congruence|]. reflexivity.
Qed.

(** ** What [strip] removes *)

(** [lstrip] removes the longest run of white space at the head. *)
Lemma lstrip_spec (s : str) :
  exists lead,
    s = lead ++ lstrip s
    /\ Forall (fun c => isspace c = true) lead
    /\ (forall c, head (lstrip s) = Some c -> isspace c = false).
Proof.
  induction s as [|c s (lead & Hs & Hlead & Hhead)]; simpl.
  - exists []. repeat split; [constructor | discriminate].
  - destruct (isspace c) eqn:Hc.
    + exists (c :: lead). repeat split; auto.
      simpl. now rewrite <- Hs.
    + exists []. repeat split; [constructor|].
      simpl. intros c' [= <-]. exact Hc.
Qed.

Lemma last_rev (s : str) : last (rev s) = head s.
Proof.
  destruct s as [|c s]; [reflexivity|]. simpl. apply last_snoc.
Qed.

(** [strip] removes the white space at both ends and nothing else: the
    string is white space, what [strip] returns, and white space, and what it
    returns neither starts nor ends with white space. *)
Lemma strip_spec (s : str) :
  exists lead trail,
    s = lead ++ strip s ++ trail
    /\ Forall (fun c => isspace c = true) lead
    /\ Forall (fun c => isspace c = true) trail
    /\ (forall c, head (strip s) = Some c -> isspace c = false)
    /\ (forall c, last (strip s) = Some c -> isspace c = false).
Proof.
  destruct (lstrip_spec s) as (lead & Hs & Hlead & Hhead).
  destruct (lstrip_spec (rev (lstrip s))) as (back & Hrev & Hback & Hlast).
  assert (Hmid : lstrip s = strip s ++ rev back).
  { unfold strip, rstrip. rewrite <- rev_app_distr, <- Hrev.
    now rewrite rev_involutive. }
  exists lead, (rev back). repeat split.
  - now rewrite <- Hmid.
  - exact Hlead.
  - now apply Forall_rev.
  - intros c Hc. apply Hhead. rewrite Hmid.
    destruct (strip s); [discriminate | exact Hc].
  - intros c Hc. apply Hlast. unfold strip, rstrip in Hc.
    now rewrite last_rev in Hc.
Qed.

(** * The claims *)

(** C2 (as amended).  For the [fit] format, when the payload starts with
    ['PK'], the library opens it as an archive, [e] is the first member whose
    name ends in [.fit] whatever the case, no later member carries the name
    of [e], and reading [e] gives [content], the resolution returns
    [content] and not the archive. *)
Theorem C2_zip_unwrap_first_fit (E : Env) (file_format : str) (id : Z)
    (payload : bytes) (pre post : list ZipInfo) (e : ZipInfo)
    (content : bytes) :
  lower file_format = lit "fit" ->
  download_activity E id ORIGINAL = Ok payload ->
  take 2 payload = PK ->
  ZipFile E payload = Ok (pre ++ e :: post) ->
  Forall (fun x => is_fit_name (zi_filename x) = false) pre ->
  is_fit_name (zi_filename e) = true ->
  Forall (fun x => zi_filename x <> zi_filename e) post ->
  zi_read e = Ok content ->
  resolve E file_format id = ([], Ok content).
Proof.
  intros Hfit Hdl Hpk Hzip Hpre He Hpost Hread.
  rewrite (resolve_fit _ _ _ Hfit), Hdl. unfold unwrap_fit.
  rewrite (bool_decide_eq_true_2 _ Hpk), Hzip.
  destruct (filter_fit_first pre post e Hpre He) as [others ->].
  now rewrite zip_read_unshadowed, Hread.
Qed.

(** C3.  For the [fit] format, when the payload starts with ['PK'] and opens
    as an archive none of whose members has a name ending in [.fit], the
    resolution returns the payload itself and prints the warning; with no
    file at the path and no write fault the activity is counted as
    downloaded, not as an error, and the payload is what is saved. *)
Theorem C3_zip_without_fit_falls_back (E : Env)
    (output_dir file_format : str) (total i : nat) (a : Activity)
    (st : State) (payload : bytes) (archive : list ZipInfo) :
  lower file_format = lit "fit" ->
  download_activity E (activityId a) ORIGINAL = Ok payload ->
  take 2 payload = PK ->
  ZipFile E payload = Ok archive ->
  Forall (fun x => is_fit_name (zi_filename x) = false) archive ->
  files st !! filepath output_dir a file_format = None ->
  write_fault E (filepath output_dir a file_format) payload = NoFault ->
  resolve E file_format (activityId a) = ([MsgNoFitWarning], Ok payload)
  /\ process_activity E output_dir file_format total i a st
     = {| files := <[filepath output_dir a file_format := payload]> (files st);
          downloaded := S (downloaded st);
          skipped := skipped st;
          errors := errors st;
          out := out st
                 ++ [MsgDownloading i total (name_of a) (take 10 (date_of a));
                     MsgNoFitWarning;
                     MsgSaved (filename a file_format)] |}.
Proof.
  intros Hfit Hdl Hpk Hzip Hnone Habsent Hfault.
  assert (Hres : resolve E file_format (activityId a)
                 = ([MsgNoFitWarning], Ok payload)).
  { rewrite (resolve_fit _ _ _ Hfit), Hdl. unfold unwrap_fit.
    rewrite (bool_decide_eq_true_2 _ Hpk), Hzip.
    now rewrite (filter_fit_none _ Hnone). }
  split; [exact Hres|].
  unfold process_activity, write_file, filepath in *.
  now rewrite Habsent, Hres, Hfault.
Qed.

(** C4.  For the [fit] format, a payload whose first two bytes are not
    ['PK'] is returned as it is, and the archive library has no part in the
    result: it is the same for every behaviour of the library. *)
Theorem C4_non_zip_passthrough (E : Env) (file_format : str) (id : Z)
    (payload : bytes) :
  lower file_format = lit "fit" ->
  download_activity E id ORIGINAL = Ok payload ->
  take 2 payload <> PK ->
  resolve E file_format id = ([], Ok payload)
  /\ forall zipfile, unwrap_fit zipfile payload = ([], Ok payload).
Proof.
  intros Hfit Hdl Hpk.
  assert (Hany : forall zipfile, unwrap_fit zipfile payload
                                 = ([], Ok payload)).
  { intros zipfile. unfold unwrap_fit.
    now rewrite (bool_decide_eq_false_2 _ Hpk). }
  split; [|exact Hany].
  now rewrite (resolve_fit _ _ _ Hfit), Hdl.
Qed.

(** C5.  With a positive limit below the number of listed activities, the
    run is the loop over the first [limit] activities of the listing, in the
    order of the listing; the list is cut before the loop, so the total of
    the summary is [limit], and the three counters add up to [limit]. *)
Theorem C5_limit_truncation (E : Env) (output_dir file_format : str)
    (limit : Z) (listed : list Activity) (fs : gmap str bytes) (u : unit) :
  login E = Ok u ->
  get_activities_by_date E = Ok listed ->
  (0 < limit)%Z ->
  (limit < Z.of_nat (length listed))%Z ->
  let n := Z.to_nat limit in
  let st := run_loop E output_dir file_format n 1 (take n listed)
              (init_state fs [MsgFound (length listed); MsgLimiting limit]) in
  apply_limit (Some limit) listed = take n listed
  /\ length (take n listed) = n
  /\ download_activities E output_dir file_format (Some limit) fs
     = (files st, out st, Some (summary_of n st))
  /\ total_activities (summary_of n st) = n
  /\ handled st = n.
Proof.
  intros Hlogin Hlist Hpos Hlt n st.
  assert (Happlies : limit_applies (Some limit) listed = true).
  { unfold limit_applies. apply andb_true_iff. split.
    - apply negb_true_iff, Z.eqb_neq. lia.
    - apply Z.ltb_lt. lia. }
  assert (Hcut : apply_limit (Some limit) listed = take n listed).
  { unfold apply_limit. rewrite Happlies. unfold slice_to.
    replace (0 <=? limit)%Z with true by (symmetry; apply Z.leb_le; lia).
    reflexivity. }
  assert (Hlen : length (take n listed) = n).
  { rewrite length_take. subst n. lia. }
  repeat split; auto.
  - rewrite (download_activities_batch _ _ _ _ _ u listed) by
      (auto; intros ->; simpl in Hlt; lia).
    unfold run_batch. cbv zeta. cbn [fst snd default].
    rewrite Hcut, Happlies, Hlen. reflexivity.
  - subst st. rewrite run_loop_handled, Hlen. reflexivity.
Qed.

(** C10.  A limit of [0], like no limit, cuts nothing: the run is the run
    without a limit, its total is the number of listed activities and every
    one of them is handled.  The list is cut only by a limit that is not [0]
    and is below the number of listed activities. *)
Theorem C10_zero_limit_is_no_limit (E : Env) (output_dir file_format : str)
    (listed : list Activity) (fs : gmap str bytes) :
  apply_limit (Some 0%Z) listed = listed
  /\ apply_limit None listed = listed
  /\ run_batch E output_dir file_format (Some 0%Z) listed fs
     = run_batch E output_dir file_format None listed fs
  /\ download_activities E output_dir file_format (Some 0%Z) fs
     = download_activities E output_dir file_format None fs
  /\ total_activities
       (snd (run_batch E output_dir file_format (Some 0%Z) listed fs))
     = length listed
  /\ handled (fst (run_batch E output_dir file_format (Some 0%Z) listed fs))
     = length listed
  /\ (forall limit, apply_limit limit listed <> listed ->
       exists l, limit = Some l /\ l <> 0%Z
                 /\ (l < Z.of_nat (length listed))%Z).
Proof.
  repeat split; try reflexivity.
  - unfold run_batch. cbv zeta. cbn [fst].
    rewrite run_loop_handled. reflexivity.
  - destruct limit as [l|]; [|intros H; now destruct H].
    unfold apply_limit.
    destruct (limit_applies (Some l) listed) eqn:Happlies;
      [|intros H; now destruct H].
    intros _. exists l. unfold limit_applies in Happlies.
    apply andb_true_iff in Happlies as [Hnz Hlt].
    apply negb_true_iff, Z.eqb_neq in Hnz. apply Z.ltb_lt in Hlt.
    auto.
Qed.

(** C1 (as amended).  When a run reaches its summary with no error counted,
    a second run with the same inputs on the files the first one left skips
    every activity: it downloads nothing, counts as many skipped as its
    total, which is the total of the first run, and leaves the files as they
    are. *)
Theorem C1_rerun_after_clean_run (E : Env) (output_dir file_format : str)
    (limit : option Z) (fs fs1 : gmap str bytes) (out1 : list Msg)
    (s1 : Summary) :
  download_activities E output_dir file_format limit fs
  = (fs1, out1, Some s1) ->
  total_errors s1 = 0%nat ->
  exists out2,
    download_activities E output_dir file_format limit fs1
    = (fs1, out2,
       Some {| total_activities := total_activities s1;
               total_downloaded := 0;
               total_skipped := total_activities s1;
               total_errors := 0 |}).
Proof.
  unfold download_activities.
  destruct (login E) as [u|e]; [|discriminate].
  destruct (get_activities_by_date E) as [[|a0 listed]|e]; try discriminate.
  unfold run_batch. cbv zeta.
  set (acts := apply_limit limit (a0 :: listed)).
  set (printed := MsgFound (length (a0 :: listed)) :: _).
  intros Hrun Herr. injection Hrun as Hfs Hout Hs. subst s1. simpl in Herr.
  simpl total_activities.
  pose proof (run_loop_no_error_files E output_dir file_format
                (length acts) acts 1 (init_state fs printed) Herr) as Hfiles.
  rewrite Hfs in Hfiles.
  destruct (run_loop_all_existing E output_dir file_format (length acts)
              acts 1 (init_state fs1 printed) Hfiles) as [out2 Hrun2].
  exists out2. rewrite Hrun2. reflexivity.
Qed.

(** C6.  An iteration whose resolution or write raises, for an activity with
    no file at its path, adds one to the error counter, leaves the two other
    counters, and the loop goes on with the next activity.  With three
    activities of distinct paths and no file there, when the download of the
    second raises and the two others go through, the summary counts three
    activities: two downloaded, none skipped, one error. *)
Theorem C6_failure_isolation (E : Env) (output_dir file_format : str) :
  (forall (total i : nat) (a : Activity) (rest : list Activity) (st : State),
     files st !! filepath output_dir a file_format = None ->
     attempt_fails E output_dir file_format a = true ->
     let st' := process_activity E output_dir file_format total i a st in
     errors st' = S (errors st)
     /\ downloaded st' = downloaded st
     /\ skipped st' = skipped st
     /\ run_loop E output_dir file_format total i (a :: rest) st
        = run_loop E output_dir file_format total (S i) rest st')
  /\ (forall (a1 a2 a3 : Activity) (fs : gmap str bytes) (e : exn),
       let p1 := filepath output_dir a1 file_format in
       let p2 := filepath output_dir a2 file_format in
       let p3 := filepath output_dir a3 file_format in
       fs !! p1 = None -> fs !! p2 = None -> fs !! p3 = None ->
       p1 <> p2 -> p1 <> p3 ->
       attempt_fails E output_dir file_format a1 = false ->
       (forall token, download_activity E (activityId a2) token = Raised e) ->
       attempt_fails E output_dir file_format a3 = false ->
       snd (run_batch E output_dir file_format None [a1; a2; a3] fs)
       = {| total_activities := 3; total_downloaded := 2;
            total_skipped := 0; total_errors := 1 |}).
Proof.
  split.
  - intros total i a rest st Habsent Hfails st'. subst st'.
    split; [|split; [|split; [|reflexivity]]];
      revert Hfails; unfold filepath in Habsent;
      process_cases E output_dir file_format a st;
      try congruence; intros Hfails; try discriminate; reflexivity.
  - intros a1 a2 a3 fs e p1 p2 p3 H1 H2 H3 H12 H13 Hok1 Hbad2 Hok3.
    unfold run_batch. cbv zeta. cbn [snd apply_limit length run_loop].
    set (st0 := init_state fs _).
    set (st1 := process_activity E output_dir file_format 3 1 a1 st0).
    set (st2 := process_activity E output_dir file_format 3 2 a2 st1).
    set (st3 := process_activity E output_dir file_format 3 3 a3 st2).
    destruct (process_downloads E output_dir file_format 3 1 a1 st0 H1 Hok1)
      as ([d1 Hf1] & Hd1 & Hs1 & He1).
    fold st1 in Hf1, Hd1, Hs1, He1.
    assert (Habsent2 : files st1 !! p2 = None).
    { rewrite Hf1. fold p1. now rewrite lookup_insert_ne. }
    destruct (process_resolve_raises E output_dir file_format 3 2 a2 st1 []
                e Habsent2 (resolve_download_raises _ _ _ _ Hbad2))
      as (Hf2 & Hd2 & Hs2 & He2).
    fold st2 in Hf2, Hd2, Hs2, He2.
    assert (Habsent3 : files st2 !! p3 = None).
    { rewrite Hf2, Hf1. fold p1. now rewrite lookup_insert_ne. }
    destruct (process_downloads E output_dir file_format 3 3 a3 st2
                Habsent3 Hok3) as (_ & Hd3 & Hs3 & He3).
    fold st3 in Hd3, Hs3, He3.
    unfold summary_of. rewrite Hd3, Hs3, He3, Hd2, Hs2, He2, Hd1, Hs1, He1.
    reflexivity.
Qed.

(** C7.  When the first ten characters of the start time of an activity do
    not parse, its file name starts with [unknown_date_], the loop goes on
    with the next activity, and the error counter moves only when the
    resolution or the write of that iteration raises.  The start time
    [not-a-date] and an absent start time are such activities. *)
Theorem C7_malformed_date_degrades (E : Env) (output_dir file_format : str)
    (total i : nat) (a : Activity) (rest : list Activity) (st : State) :
  strptime (take 10 (date_of a)) = None ->
  startswith (filename a file_format) (lit "unknown_date_") = true
  /\ run_loop E output_dir file_format total i (a :: rest) st
     = run_loop E output_dir file_format total (S i) rest
         (process_activity E output_dir file_format total i a st)
  /\ errors (process_activity E output_dir file_format total i a st)
     = match files st !! filepath output_dir a file_format with
       | Some _ => errors st
       | None => if attempt_fails E output_dir file_format a
                 then S (errors st) else errors st
       end
  /\ strptime (take 10 (lit "not-a-date")) = None
  /\ (forall b, startTimeLocal b = None ->
                strptime (take 10 (date_of b)) = None).
Proof.
  intros Hparse. repeat split.
  - unfold filename, date_str. rewrite Hparse. apply startswith_sentinel.
  - apply process_errors.
  - intros b Hb. unfold date_of. rewrite Hb. reflexivity.
Qed.

(** C8.  The sanitized name is obtained in three steps.  Only the
    alphanumerics, spaces, hyphens and underscores of the name are kept, in
    their order.  What is kept is white space, a core and white space, where
    the core neither starts nor ends with white space: the core is what
    stays.  Every space of the core becomes an underscore.  The sanitized
    name is made of alphanumerics, hyphens and underscores, and with an
    extension made of file name characters the whole file name is made of
    alphanumerics, hyphens, underscores and dots. *)
Theorem C8_name_sanitization (a : Activity) (file_format : str) :
  Forall (fun c => filename_char c = true) file_format ->
  (exists lead core trail,
     List.filter
       (fun c => isalnum c || (c =? 32) || (c =? 45) || (c =? 95))
       (name_of a)
     = lead ++ core ++ trail
     /\ Forall (fun c => isspace c = true) lead
     /\ Forall (fun c => isspace c = true) trail
     /\ (forall c, head core = Some c -> isspace c = false)
     /\ (forall c, last core = Some c -> isspace c = false)
     /\ safe_name (name_of a)
        = List.map (fun c => if c =? 32 then 95 else c) core)
  /\ Forall (fun c => name_char c = true) (safe_name (name_of a))
  /\ Forall (fun c => filename_char c = true) (filename a file_format).
Proof.
  intros Hfmt. split; [|split; [apply safe_name_chars|]].
  - destruct (strip_spec (List.filter keeps (name_of a)))
      as (lead & trail & Hkept & Hlead & Htrail & Hhead & Hlast).
    exists lead, (strip (List.filter keeps (name_of a))), trail.
    repeat split; auto.
  - unfold filename.
    repeat (apply Forall_app; split); auto.
    + apply date_str_chars.
    + repeat constructor.
    + apply str_of_Z_chars.
    + repeat constructor.
    + eapply Forall_impl; [apply safe_name_chars|].
      intros c. apply name_char_filename_char.
    + repeat constructor.
Qed.

(** C9 (as amended).  When the bytes of an activity are resolved and the
    write raises, the iteration counts one error and no download, and no
    other path changes; the path itself has no file when [open] raised, and
    holds the bytes written before the fault when [write] raised. *)
Theorem C9_write_failure_is_an_error (E : Env)
    (output_dir file_format : str) (total i : nat) (a : Activity)
    (st : State) (warn : list Msg) (data : bytes) :
  let path := filepath output_dir a file_format in
  let st' := process_activity E output_dir file_format total i a st in
  files st !! path = None ->
  resolve E file_format (activityId a) = (warn, Ok data) ->
  write_fault E path data <> NoFault ->
  errors st' = S (errors st)
  /\ downloaded st' = downloaded st
  /\ skipped st' = skipped st
  /\ (forall q, q <> path -> files st' !! q = files st !! q)
  /\ files st' !! path
     = match write_fault E path data with
       | WriteFaultAfter n => Some (take n data)
       | _ => None
       end.
Proof.
  intros path st' Habsent Hres Hfault. subst st' path.
  unfold process_activity, write_file, filepath in *.
  rewrite Habsent, Hres.
  destruct (write_fault E _ data) as [| |n]; [congruence| |]; simpl.
  - repeat split; auto.
  - repeat split; auto.
    + intros q Hq. now apply lookup_insert_ne.
    + apply lookup_insert_eq.
Qed.

End Properties.

(** * More properties of the program *)

(** The branches of one iteration, with the lookup, the resolution and the
    write fault named. *)
Ltac step_cases E output_dir file_format a st :=
  unfold process_activity, attempt_fails, filepath, write_file;
  destruct (files st !! path_join output_dir (filename a file_format))
    as [existing|] eqn:Hexists;
  [| destruct (resolve E file_format (activityId a)) as [warn [data|e]];
     [destruct (write_fault E
                  (path_join output_dir (filename a file_format)) data)
        as [| |n] eqn:Hfault |] ];
  simpl.

Section Batch.
Context `{P : Platform}.

(** ** What a run that reaches its summary is made of *)

Lemma apply_limit_length (limit : option Z) (listed : list Activity) :
  (length (apply_limit limit listed) <= length listed)%nat.
Proof.
  unfold apply_limit. destruct limit as [l|]; [|lia].
  destruct (limit_applies (Some l) listed); [|lia].
  unfold slice_to. destruct (0 <=? l)%Z; rewrite length_take; lia.
Qed.

Lemma apply_limit_prefix (limit : option Z) (listed : list Activity) :
  exists n, apply_limit limit listed = take n listed.
Proof.
  unfold apply_limit. destruct limit as [l|].
  - destruct (limit_applies (Some l) listed).
    + unfold slice_to. destruct (0 <=? l)%Z; eauto.
    + exists (length listed). now rewrite firstn_all.
  - exists (length listed). now rewrite firstn_all.
Qed.

(** A run with a summary is the loop over the listing, cut by the limit. *)
Lemma download_activities_summary (E : Env) (output_dir file_format : str)
    (limit : option Z) (fs fs' : gmap str bytes) (printed : list Msg)
    (s : Summary) :
  download_activities E output_dir file_format limit fs
  = (fs', printed, Some s) ->
  exists (u : unit) (listed : list Activity) (st0 : State),
    login E = Ok u
    /\ get_activities_by_date E = Ok listed
    /\ listed <> []
    /\ files st0 = fs /\ downloaded st0 = 0%nat /\ skipped st0 = 0%nat
    /\ errors st0 = 0%nat
    /\ let acts := apply_limit limit listed in
       let st := run_loop E output_dir file_format (length acts) 1 acts st0 in
       fs' = files st /\ printed = out st
       /\ s = summary_of (length acts) st.
Proof.
  unfold download_activities.
  destruct (login E) as [u|e]; [|discriminate].
  destruct (get_activities_by_date E) as [[|a0 listed]|e]; try discriminate.
  unfold run_batch. cbv zeta. intros Hrun. injection Hrun as <- <- <-.
  exists u, (a0 :: listed). eexists (init_state fs _).
  repeat split; discriminate.
Qed.

(** ** The files of the directory *)

Lemma process_keeps_files (E : Env) (output_dir file_format : str)
    (total i : nat) (a : Activity) (st : State) (p : str) (b : bytes) :
  files st !! p = Some b ->
  files (process_activity E output_dir file_format total i a st) !! p
  = Some b.
Proof.
  intros Hp. step_cases E output_dir file_format a st; auto;
    rewrite lookup_insert_ne; auto; congruence.
Qed.

Lemma run_loop_keeps_files (E : Env) (output_dir file_format : str)
    (total : nat) (l : list Activity) (i : nat) (st : State) (p : str)
    (b : bytes) :
  files st !! p = Some b ->
  files (run_loop E output_dir file_format total i l st) !! p = Some b.
Proof.
  revert i st. induction l as [|a l IH]; intros i st Hp; simpl; [exact Hp|].
  apply IH. now apply process_keeps_files.
Qed.

Lemma process_size (E : Env) (output_dir file_format : str)
    (total i : nat) (a : Activity) (st : State) :
  let st' := process_activity E output_dir file_format total i a st in
  (size (files st) + downloaded st' <= size (files st') + downloaded st)%nat
  /\ ((forall p d, write_fault E p d = NoFault) ->
      (size (files st') + downloaded st
       = size (files st) + downloaded st')%nat).
Proof.
  step_cases E output_dir file_format a st;
    try rewrite (map_size_insert_None _ _ _ Hexists);
    (split; [lia | intros Hnofault; try lia;
                   rewrite Hnofault in Hfault; discriminate]).
Qed.

Lemma run_loop_size (E : Env) (output_dir file_format : str)
    (total : nat) (l : list Activity) (i : nat) (st : State) :
  let st' := run_loop E output_dir file_format total i l st in
  (size (files st) + downloaded st' <= size (files st') + downloaded st)%nat
  /\ ((forall p d, write_fault E p d = NoFault) ->
      (size (files st') + downloaded st
       = size (files st) + downloaded st')%nat).
Proof.
  revert i st. induction l as [|a l IH]; intros i st; simpl; [lia|].
  destruct (IH (S i) (process_activity E output_dir file_format total i a st))
    as [Hle Heq].
  destruct (process_size E output_dir file_format total i a st)
    as [Hle1 Heq1].
  split; [lia|]. intros Hnofault.
  specialize (Heq Hnofault). specialize (Heq1 Hnofault). lia.
Qed.

(** ** File names tell activities apart *)

Lemma split_at_separator (c : N) (a1 a2 b1 b2 : str) :
  ~ In c a1 -> ~ In c a2 ->
  a1 ++ c :: b1 = a2 ++ c :: b2 -> a1 = a2 /\ b1 = b2.
Proof.
  revert a2. induction a1 as [|x a1 IH]; intros [|y a2] H1 H2 Heq;
    simpl in *.
  - injection Heq as ->. auto.
  - injection Heq as -> _. tauto.
  - injection Heq as -> _. tauto.
  - injection Heq as -> Heq.
    destruct (IH a2) as [-> ->]; auto.
Qed.

Lemma digits_without (c : N) (s : str) :
  ascii_digit c = false ->
  Forall (fun x => ascii_digit x = true) s -> ~ In c s.
Proof.
  intros Hc Hs Hin. rewrite Forall_forall in Hs.
  apply list_elem_of_In in Hin. apply Hs in Hin. congruence.
Qed.

Lemma str_of_N_digits (n : N) :
  Forall (fun c => ascii_digit c = true) (str_of_N n).
Proof. apply uint_codes_digits. Qed.

Lemma zero_pad_digits (w : nat) (n : N) :
  Forall (fun c => ascii_digit c = true) (zero_pad w n).
Proof.
  unfold zero_pad. apply Forall_app. split; [|apply str_of_N_digits].
  apply Forall_forall. intros c Hc.
  apply list_elem_of_In, repeat_spec in Hc. now subst c.
Qed.

Lemma strftime_digits (d : date) :
  Forall (fun c => ascii_digit c = true) (strftime d).
Proof.
  unfold strftime. apply Forall_app. split.
  - destruct strftime_pads_year;
      [apply zero_pad_digits | apply str_of_N_digits].
  - apply Forall_app. split; apply zero_pad_digits.
Qed.

(** The date part of a file name is made of digits, or is the sentinel. *)
Lemma date_str_cases (s : str) :
  Forall (fun c => ascii_digit c = true) (date_str s)
  \/ date_str s = lit "unknown_date".
Proof.
  unfold date_str. destruct (strptime (take 10 s)); [left|right; reflexivity].
  apply strftime_digits.
Qed.

Lemma uint_codes_inj (d d' : Decimal.uint) :
  uint_codes d = uint_codes d' -> d = d'.
Proof.
  revert d'. induction d; intros d' Heq; destruct d'; simpl in Heq;
    try discriminate; try reflexivity;
    injection Heq as Heq; f_equal; now apply IHd.
Qed.

Lemma str_of_N_inj (n n' : N) : str_of_N n = str_of_N n' -> n = n'.
Proof.
  intros Heq. now apply DecimalN.Unsigned.to_uint_inj, uint_codes_inj.
Qed.

Lemma str_of_N_no_sign (n : N) (s : str) : str_of_N n <> 45 :: s.
Proof.
  intros Heq. pose proof (str_of_N_digits n) as Hd. rewrite Heq in Hd.
  inversion Hd as [|? ? H45 _]. discriminate H45.
Qed.

(** [str] of an integer determines the integer. *)
Lemma str_of_Z_inj (z z' : Z) : str_of_Z z = str_of_Z z' -> z = z'.
Proof.
  destruct z as [|p|p], z' as [|p'|p']; simpl; intros Heq;
    try reflexivity;
    try (apply str_of_N_inj in Heq; congruence);
    try (now apply str_of_N_no_sign in Heq);
    try (symmetry in Heq; now apply str_of_N_no_sign in Heq).
  injection Heq as Heq. apply str_of_N_inj in Heq. congruence.
Qed.

Lemma str_of_Z_no_underscore (z : Z) : ~ In 95 (str_of_Z z).
Proof.
  destruct z as [|p|p]; simpl.
  - exact (digits_without 95 _ eq_refl (str_of_N_digits 0)).
  - exact (digits_without 95 _ eq_refl (str_of_N_digits (Npos p))).
  - intros [H|H]; [discriminate|].
    exact (digits_without 95 _ eq_refl (str_of_N_digits (Npos p)) H).
Qed.

(** Two activities of the same file name have the same identifier: the date part ends at the first underscore after it, and the
    identifier at the next one. *)
Lemma filename_determines_id (a b : Activity) (file_format : str) :
  filename a file_format = filename b file_format ->
  activityId a = activityId b.
Proof.
  unfold filename. change (lit "_") with [95].
  intros Heq.
  assert (Hrest : str_of_Z (activityId a)
                    ++ 95 :: safe_name (name_of a) ++ lit "." ++ file_format
                  = str_of_Z (activityId b)
                    ++ 95 :: safe_name (name_of b) ++ lit "." ++ file_format).
  { destruct (date_str_cases (date_of a)) as [Ha|Ha],
             (date_str_cases (date_of b)) as [Hb|Hb].
    - apply (split_at_separator 95) in Heq as [_ Heq]; [exact Heq| |].
      + exact (digits_without 95 _ eq_refl Ha).
      + exact (digits_without 95 _ eq_refl Hb).
    - rewrite Hb in Heq. exfalso.
      destruct (date_str (date_of a)) as [|c d]; [discriminate Heq|].
      injection Heq as -> _. inversion Ha as [|? ? Hc _]. discriminate Hc.
    - rewrite Ha in Heq. exfalso.
      destruct (date_str (date_of b)) as [|c d]; [discriminate Heq|].
      injection Heq as <- _. inversion Hb as [|? ? Hc _]. discriminate Hc.
    - rewrite Ha, Hb in Heq. apply app_inv_head in Heq.
      simpl in Heq. injection Heq as Heq. exact Heq. }
  apply (split_at_separator 95) in Hrest as [Hid _];
    try apply str_of_Z_no_underscore.
  now apply str_of_Z_inj.
Qed.

Lemma filename_not_absolute (a : Activity) (file_format : str) :
  startswith (filename a file_format) [47] = false.
Proof.
  unfold startswith, filename. apply bool_decide_eq_false_2.
  destruct (date_str_cases (date_of a)) as [Ha|Ha].
  - destruct (date_str (date_of a)) as [|c d]; [discriminate|].
    simpl. intros [= ->]. inversion Ha as [|? ? Hc _]. discriminate Hc.
  - rewrite Ha. discriminate.
Qed.

(** [os.path.join] never takes its absolute-component branch: the file is
    the directory, a separator when the directory needs one, and the name. *)
Lemma filepath_in_directory (output_dir : str) (a : Activity)
    (file_format : str) :
  filepath output_dir a file_format
  = output_dir
    ++ (if bool_decide (output_dir = []) || endswith output_dir [47]
        then [] else [47])
    ++ filename a file_format.
Proof.
  unfold filepath, path_join. rewrite filename_not_absolute.
  now destruct (bool_decide (output_dir = []) || endswith output_dir [47]).
Qed.

(** ** Steps that save, and steps that fail *)

Lemma attempt_succeeds (E : Env) (output_dir file_format : str)
    (a : Activity) :
  attempt_fails E output_dir file_format a = false ->
  exists warn data,
    resolve E file_format (activityId a) = (warn, Ok data)
    /\ write_fault E (filepath output_dir a file_format) data = NoFault.
Proof.
  unfold attempt_fails.
  destruct (resolve E file_format (activityId a)) as [warn [data|e]];
    [|discriminate].
  destruct (write_fault E _ data) eqn:Hfault; try discriminate. eauto.
Qed.

Lemma process_saves (E : Env) (output_dir file_format : str)
    (total i : nat) (a : Activity) (st : State) (warn : list Msg)
    (data : bytes) :
  files st !! filepath output_dir a file_format = None ->
  resolve E file_format (activityId a) = (warn, Ok data) ->
  write_fault E (filepath output_dir a file_format) data = NoFault ->
  process_activity E output_dir file_format total i a st
  = {| files := <[filepath output_dir a file_format := data]> (files st);
       downloaded := S (downloaded st);
       skipped := skipped st;
       errors := errors st;
       out := out st
              ++ MsgDownloading i total (name_of a) (take 10 (date_of a))
                 :: warn ++ [MsgSaved (filename a file_format)] |}.
Proof.
  intros Habsent Hres Hfault.
  unfold process_activity, write_file, filepath in *.
  now rewrite Habsent, Hres, Hfault.
Qed.

Lemma NoDup_map_take (l : list Activity) (n : nat) :
  NoDup (List.map activityId l) -> NoDup (List.map activityId (take n l)).
Proof.
  revert n. induction l as [|a l IH]; intros [|n] Hnd; simpl;
    try constructor.
  - inversion Hnd as [|? ? Hnotin Hrest]; subst.
    intros Hin. apply Hnotin. apply list_elem_of_In.
    apply list_elem_of_In, in_map_iff in Hin as (b & Hb & Hin).
    apply in_map_iff. exists b. split; [exact Hb|].
    apply list_elem_of_In. apply list_elem_of_In in Hin.
    now apply (subseteq_take n l).
  - inversion Hnd; subst. now apply IH.
Qed.

(** In a loop over activities of distinct identifiers, none of which has a
    file, and all of which resolve and write well, every one is downloaded
    and has its file at the end. *)
Lemma run_loop_all_new (E : Env) (output_dir file_format : str)
    (total : nat) (l : list Activity) (i : nat) (st : State) :
  NoDup (List.map activityId l) ->
  Forall (fun a => files st !! filepath output_dir a file_format = None) l ->
  Forall (fun a => attempt_fails E output_dir file_format a = false) l ->
  let st' := run_loop E output_dir file_format total i l st in
  downloaded st' = (downloaded st + length l)%nat
  /\ skipped st' = skipped st
  /\ errors st' = errors st
  /\ Forall (fun a => is_Some (files st' !! filepath output_dir a file_format))
            l.
Proof.
  revert i st. induction l as [|a l IH]; intros i st Hnd Habsent Hok; simpl.
  - repeat split; auto.
  - inversion Hnd as [|? ? Hnotin Hnd']; subst.
    inversion Habsent as [|? ? Ha Hl]; subst.
    inversion Hok as [|? ? Hoka Hokl]; subst.
    destruct (process_downloads E output_dir file_format total i a st Ha Hoka)
      as ([d Hf] & Hd & Hs & He).
    set (st1 := process_activity E output_dir file_format total i a st) in *.
    assert (Hl1 : Forall (fun b => files st1
                            !! filepath output_dir b file_format = None) l).
    { rewrite Forall_forall in Hl. apply Forall_forall. intros b Hb.
      rewrite Hf, lookup_insert_ne; [now apply Hl|].
      intros Hsame. apply Hnotin.
      rewrite !filepath_in_directory in Hsame.
      apply app_inv_head, app_inv_head in Hsame.
      apply filename_determines_id in Hsame. rewrite Hsame.
      apply list_elem_of_In, in_map. now apply list_elem_of_In. }
    destruct (IH (S i) st1 Hnd' Hl1 Hokl) as (Hd' & Hs' & He' & Hfiles).
    repeat split; try lia; try congruence.
    constructor; [|exact Hfiles].
    apply run_loop_files_mono. rewrite Hf, lookup_insert_eq. eauto.
Qed.

(** ** A second run *)

Lemma process_settles (E : Env) (output_dir file_format : str)
    (total i : nat) (a : Activity) (st : State) :
  is_Some (files (process_activity E output_dir file_format total i a st)
             !! filepath output_dir a file_format)
  \/ leaves_no_file E output_dir file_format a = true.
Proof.
  unfold leaves_no_file, filepath.
  step_cases E output_dir file_format a st; auto;
    left; try rewrite lookup_insert_eq; eauto.
Qed.

(** After the loop every activity has its file, or is one whose attempt
    leaves none. *)
Lemma run_loop_settles (E : Env) (output_dir file_format : str)
    (total : nat) (l : list Activity) (i : nat) (st : State) :
  Forall (fun a =>
            is_Some (files (run_loop E output_dir file_format total i l st)
                       !! filepath output_dir a file_format)
            \/ leaves_no_file E output_dir file_format a = true) l.
Proof.
  revert i st. induction l as [|a l IH]; intros i st; simpl; constructor.
  - destruct (process_settles E output_dir file_format total i a st)
      as [Hfile|Hnone]; [left|now right].
    now apply run_loop_files_mono.
  - apply IH.
Qed.

(** On such activities the loop changes no file and downloads nothing: it
    skips those that have a file and counts an error for the others. *)
Lemma run_loop_settled (E : Env) (output_dir file_format : str)
    (total : nat) (l : list Activity) (i : nat) (st : State) :
  Forall (fun a =>
            is_Some (files st !! filepath output_dir a file_format)
            \/ leaves_no_file E output_dir file_format a = true) l ->
  let st' := run_loop E output_dir file_format total i l st in
  files st' = files st
  /\ downloaded st' = downloaded st
  /\ errors st' = (errors st + missing output_dir file_format (files st) l)%nat
  /\ (skipped st' + errors st' = skipped st + errors st + length l)%nat.
Proof.
  revert i st. induction l as [|a l IH]; intros i st Hall; simpl.
  - unfold missing. simpl. repeat split; lia.
  - inversion Hall as [|? ? Ha Hl]; subst.
    assert (Hstep :
      let st1 := process_activity E output_dir file_format total i a st in
      files st1 = files st /\ downloaded st1 = downloaded st
      /\ errors st1
         = (errors st
            + (if bool_decide (files st !! filepath output_dir a file_format
                               = None) then 1 else 0))%nat
      /\ (skipped st1 + errors st1 = S (skipped st + errors st))%nat).
    { unfold leaves_no_file, filepath in *. clear IH Hl Hall.
      step_cases E output_dir file_format a st;
        try (destruct Ha as [[? Hsome]|Hnone]; try discriminate);
        repeat split; try lia. }
    cbv zeta in Hstep. destruct Hstep as (Hf1 & Hd1 & He1 & Hs1).
    set (st1 := process_activity E output_dir file_format total i a st) in *.
    destruct (IH (S i) st1) as (Hf & Hd & He & Hs).
    { now rewrite Hf1. }
    unfold missing in *. cbn [List.filter]. rewrite Hf1 in He.
    destruct (bool_decide (files st !! filepath output_dir a file_format
                           = None)); cbn [length];
      repeat split; try congruence; lia.
Qed.

Lemma process_errors_step (E : Env) (output_dir file_format : str)
    (total i : nat) (a : Activity) (st : State) :
  (errors (process_activity E output_dir file_format total i a st)
   <= S (errors st))%nat.
Proof.
  step_cases E output_dir file_format a st; lia.
Qed.

(** Every activity without a file at the end of the loop was counted as an
    error by it. *)
Lemma run_loop_errors_missing (E : Env) (output_dir file_format : str)
    (total : nat) (l : list Activity) (i : nat) (st : State) :
  let st' := run_loop E output_dir file_format total i l st in
  (errors st + missing output_dir file_format (files st') l
   <= errors st')%nat.
Proof.
  revert i st. induction l as [|a l IH]; intros i st; simpl.
  - unfold missing. simpl. lia.
  - set (st1 := process_activity E output_dir file_format total i a st).
    specialize (IH (S i) st1). cbv zeta in IH.
    set (st' := run_loop E output_dir file_format total (S i) l st1) in *.
    unfold missing in *. cbn [List.filter].
    pose proof (process_errors_le E output_dir file_format total i a st).
    case_bool_decide as Hnone; cbn [length]; [|fold st1 in H; lia].
    assert (Hstep : errors st1 <> errors st).
    { intros Hsame.
      apply (process_no_error_file E output_dir file_format total i a st)
        in Hsame.
      apply (run_loop_files_mono E output_dir file_format total l (S i))
        in Hsame.
      fold st1 st' in Hsame. rewrite Hnone in Hsame.
      now destruct Hsame. }
    fold st1 in H. lia.
Qed.

(** ** The printed lines *)

(** The resolution prints nothing but the warning of the archive without a
    [.fit] member. *)
Lemma resolve_prints (E : Env) (file_format : str) (id : Z) :
  fst (resolve E file_format id) = []
  \/ fst (resolve E file_format id) = [MsgNoFitWarning].
Proof.
  unfold resolve, unwrap_fit.
  repeat case_bool_decide; auto;
    destruct (download_activity E id ORIGINAL) as [zip_data|e]; auto.
  case_bool_decide; auto.
  destruct (ZipFile E zip_data) as [zip_ref|e]; auto.
  destruct (List.filter is_fit_name (namelist zip_ref)); auto.
Qed.

Lemma lines_app (kind : Msg -> bool) (l1 l2 : list Msg) :
  lines kind (l1 ++ l2) = (lines kind l1 + lines kind l2)%nat.
Proof. unfold lines. now rewrite List.filter_app, length_app. Qed.

(** One iteration prints one progress line, with the index and the total of
    the loop, and one line for its outcome. *)
Lemma process_prints (E : Env) (output_dir file_format : str)
    (total i : nat) (a : Activity) (st : State) :
  let st' := process_activity E output_dir file_format total i a st in
  omap progress (out st') = omap progress (out st) ++ [(i, total)]
  /\ (lines is_skipping (out st') + skipped st
      = lines is_skipping (out st) + skipped st')%nat
  /\ (lines is_saved (out st') + downloaded st
      = lines is_saved (out st) + downloaded st')%nat
  /\ (lines is_error (out st') + errors st
      = lines is_error (out st) + errors st')%nat.
Proof.
  pose proof (resolve_prints E file_format (activityId a)) as Hwarn.
  step_cases E output_dir file_format a st;
    rewrite ?omap_app, ?lines_app; cbn [fst] in Hwarn;
    try (destruct Hwarn as [-> | ->]); simpl;
    repeat split; unfold lines; simpl; lia.
Qed.

Lemma run_loop_prints (E : Env) (output_dir file_format : str)
    (total : nat) (l : list Activity) (i : nat) (st : State) :
  let st' := run_loop E output_dir file_format total i l st in
  omap progress (out st')
  = omap progress (out st)
    ++ List.map (fun k => (k, total)) (seq i (length l))
  /\ (lines is_skipping (out st') + skipped st
      = lines is_skipping (out st) + skipped st')%nat
  /\ (lines is_saved (out st') + downloaded st
      = lines is_saved (out st) + downloaded st')%nat
  /\ (lines is_error (out st') + errors st
      = lines is_error (out st) + errors st')%nat.
Proof.
  revert i st. induction l as [|a l IH]; intros i st; simpl.
  - rewrite app_nil_r. repeat split; lia.
  - destruct (IH (S i) (process_activity E output_dir file_format total i a
                          st)) as (Hp & Hk & Hs & He).
    destruct (process_prints E output_dir file_format total i a st)
      as (Hp1 & Hk1 & Hs1 & He1).
    split; [|repeat split; lia].
    rewrite Hp, Hp1, <- app_assoc. reflexivity.
Qed.

(** ** What a run writes *)

(** A path that gets a file in one iteration is the path of its activity,
    and the file holds the bytes resolved for it, or their beginning. *)
Lemma process_writes (E : Env) (output_dir file_format : str)
    (total i : nat) (a : Activity) (st : State) (p : str) (b : bytes) :
  files st !! p = None ->
  files (process_activity E output_dir file_format total i a st) !! p
  = Some b ->
  p = filepath output_dir a file_format
  /\ exists warn data n,
       resolve E file_format (activityId a) = (warn, Ok data)
       /\ b = take n data.
Proof.
  intros Habsent. unfold filepath.
  step_cases E output_dir file_format a st; try congruence; intros Hb;
    destruct (decide (path_join output_dir (filename a file_format) = p))
      as [<-|Hne];
    try (rewrite lookup_insert_ne in Hb by exact Hne; congruence);
    rewrite lookup_insert_eq in Hb; injection Hb as <-;
    (split; [reflexivity|]).
  - exists warn, data, (length data). now rewrite firstn_all.
  - exists warn, data, n. auto.
Qed.

Lemma run_loop_writes (E : Env) (output_dir file_format : str)
    (total : nat) (l : list Activity) (i : nat) (st : State) (p : str)
    (b : bytes) :
  files st !! p = None ->
  files (run_loop E output_dir file_format total i l st) !! p = Some b ->
  exists a,
    In a l /\ p = filepath output_dir a file_format
    /\ exists warn data n,
         resolve E file_format (activityId a) = (warn, Ok data)
         /\ b = take n data.
Proof.
  revert i st. induction l as [|a l IH]; intros i st Habsent Hb; simpl in *.
  - congruence.
  - destruct (files (process_activity E output_dir file_format total i a st)
                !! p) as [b1|] eqn:Hstep.
    + pose proof (run_loop_keeps_files E output_dir file_format total l
                    (S i) _ p b1 Hstep) as Hkept.
      rewrite Hkept in Hb. injection Hb as <-.
      destruct (process_writes E output_dir file_format total i a st p b1
                  Habsent Hstep) as [-> Hdata].
      exists a. auto.
    + destruct (IH (S i) _ Hstep Hb) as (a' & Hin & Hrest).
      exists a'. auto.
Qed.

(** ** Properties of a whole run *)

(** Every activity the loop goes over is counted once: at the summary the
    three counters add up to the total, and the total is at most the number
    of listed activities. *)
Theorem summary_counts_every_activity (E : Env)
    (output_dir file_format : str) (limit : option Z)
    (fs fs' : gmap str bytes) (printed : list Msg) (s : Summary) :
  download_activities E output_dir file_format limit fs
  = (fs', printed, Some s) ->
  (total_downloaded s + total_skipped s + total_errors s)%nat
  = total_activities s
  /\ exists listed,
       get_activities_by_date E = Ok listed
       /\ total_activities s = length (apply_limit limit listed)
       /\ (total_activities s <= length listed)%nat.
Proof.
  intros Hrun.
  destruct (download_activities_summary _ _ _ _ _ _ _ _ Hrun)
    as (u & listed & st0 & _ & Hlist & _ & _ & Hd0 & Hs0 & He0 & Hst).
  cbv zeta in Hst. destruct Hst as (_ & _ & ->). simpl. split.
  - pose proof (run_loop_handled E output_dir file_format
                  (length (apply_limit limit listed))
                  (apply_limit limit listed) 1 st0) as Hh.
    unfold handled in Hh. lia.
  - exists listed. repeat split; auto. apply apply_limit_length.
Qed.

(** A run never removes a file of the directory and never changes the
    content of one, whatever its outcome. *)
Theorem existing_files_are_kept (E : Env) (output_dir file_format : str)
    (limit : option Z) (fs fs' : gmap str bytes) (printed : list Msg)
    (r : option Summary) (p : str) (b : bytes) :
  download_activities E output_dir file_format limit fs = (fs', printed, r) ->
  fs !! p = Some b ->
  fs' !! p = Some b.
Proof.
  unfold download_activities.
  destruct (login E) as [u|e]; [|now intros [= <- _ _]].
  destruct (get_activities_by_date E) as [[|a0 listed]|e];
    try now intros [= <- _ _].
  unfold run_batch. cbv zeta. intros [= <- _ _] Hp.
  now apply run_loop_keeps_files.
Qed.

(** Every counted download is a file that was not there: the directory
    grows by at least the number of downloads, and by exactly that number
    when no write fails. *)
Theorem downloads_are_new_files (E : Env) (output_dir file_format : str)
    (limit : option Z) (fs fs' : gmap str bytes) (printed : list Msg)
    (s : Summary) :
  download_activities E output_dir file_format limit fs
  = (fs', printed, Some s) ->
  (size fs + total_downloaded s <= size fs')%nat
  /\ ((forall p d, write_fault E p d = NoFault) ->
      size fs' = (size fs + total_downloaded s)%nat).
Proof.
  intros Hrun.
  destruct (download_activities_summary _ _ _ _ _ _ _ _ Hrun)
    as (u & listed & st0 & _ & _ & _ & Hf0 & Hd0 & _ & _ & Hst).
  cbv zeta in Hst. destruct Hst as (-> & _ & ->). simpl.
  destruct (run_loop_size E output_dir file_format
              (length (apply_limit limit listed))
              (apply_limit limit listed) 1 st0) as [Hle Heq].
  rewrite Hf0, Hd0 in *. split; [lia|].
  intros Hnofault. specialize (Heq Hnofault). lia.
Qed.

(** Two activities of different identifiers never share a path: neither can
    make the other be skipped. *)
Theorem distinct_ids_distinct_paths (output_dir file_format : str)
    (a b : Activity) :
  activityId a <> activityId b ->
  filepath output_dir a file_format <> filepath output_dir b file_format.
Proof.
  intros Hid Hsame. apply Hid.
  rewrite !filepath_in_directory in Hsame.
  apply app_inv_head, app_inv_head in Hsame.
  now apply filename_determines_id in Hsame.
Qed.

(** A first run is complete: when the listed activities have distinct
    identifiers, none has a file yet, and every resolution and write goes
    through, the run downloads every activity it goes over, skips none,
    counts no error, and each of them has its file at the end. *)
Theorem clean_first_run_downloads_all (E : Env)
    (output_dir file_format : str) (limit : option Z)
    (listed : list Activity) (fs : gmap str bytes) (u : unit) :
  login E = Ok u ->
  get_activities_by_date E = Ok listed ->
  listed <> [] ->
  NoDup (List.map activityId listed) ->
  Forall (fun a => fs !! filepath output_dir a file_format = None) listed ->
  Forall (fun a => attempt_fails E output_dir file_format a = false) listed ->
  let n := length (apply_limit limit listed) in
  exists fs' printed,
    download_activities E output_dir file_format limit fs
    = (fs', printed,
       Some {| total_activities := n; total_downloaded := n;
               total_skipped := 0; total_errors := 0 |})
    /\ Forall (fun a => is_Some (fs' !! filepath output_dir a file_format))
              (apply_limit limit listed).
Proof.
  intros Hlogin Hlist Hne Hnd Habsent Hok n.
  rewrite (download_activities_batch _ _ _ _ _ u listed) by auto.
  unfold run_batch. cbv zeta. cbn [fst snd].
  destruct (apply_limit_prefix limit listed) as [k Hk].
  subst n. set (acts := apply_limit limit listed) in *.
  set (st0 := init_state fs _).
  destruct (run_loop_all_new E output_dir file_format (length acts) acts 1
              st0) as (Hd & Hs & He & Hfiles).
  - rewrite Hk. now apply NoDup_map_take.
  - rewrite Hk. now apply Forall_take.
  - rewrite Hk. now apply Forall_take.
  - do 2 eexists. split; [|exact Hfiles].
    unfold summary_of. rewrite Hd, Hs, He. reflexivity.
Qed.

(** For the [fit] format, a payload with the ZIP signature that does not
    open, or whose first [.fit] member does not read, is an error of that
    activity: nothing is written, one error is counted, and the exception is
    the one printed. *)
Theorem unreadable_archive_is_an_error (E : Env)
    (output_dir file_format : str) (total i : nat) (a : Activity)
    (st : State) (payload : bytes) (e : exn) :
  lower file_format = lit "fit" ->
  download_activity E (activityId a) ORIGINAL = Ok payload ->
  take 2 payload = PK ->
  (ZipFile E payload = Raised e
   \/ exists zip_ref f others,
        ZipFile E payload = Ok zip_ref
        /\ List.filter is_fit_name (namelist zip_ref) = f :: others
        /\ zip_read zip_ref f = Raised e) ->
  files st !! filepath output_dir a file_format = None ->
  process_activity E output_dir file_format total i a st
  = {| files := files st; downloaded := downloaded st;
       skipped := skipped st; errors := S (errors st);
       out := out st
              ++ [MsgDownloading i total (name_of a) (take 10 (date_of a));
                  MsgError (activityId a) e] |}.
Proof.
  intros Hfit Hdl Hpk Hbad Habsent.
  assert (Hres : resolve E file_format (activityId a) = ([], Raised e)).
  { rewrite (resolve_fit _ _ _ Hfit), Hdl. unfold unwrap_fit.
    rewrite (bool_decide_eq_true_2 _ Hpk).
    destruct Hbad as [-> | (z & f & others & -> & -> & ->)]; reflexivity. }
  unfold process_activity, filepath in *. now rewrite Habsent, Hres.
Qed.

(** A file cut short by a failed write is never repaired: once the fault has
    left the first [n] bytes at the path, the activity is skipped by every
    later iteration, with any service and any disk, and the cut file
    stays. *)
Theorem truncated_file_is_never_repaired (E E' : Env)
    (output_dir file_format : str) (total i total' i' : nat) (a : Activity)
    (st : State) (warn : list Msg) (data : bytes) (n : nat) :
  let path := filepath output_dir a file_format in
  let st1 := process_activity E output_dir file_format total i a st in
  let st2 := process_activity E' output_dir file_format total' i' a st1 in
  files st !! path = None ->
  resolve E file_format (activityId a) = (warn, Ok data) ->
  write_fault E path data = WriteFaultAfter n ->
  files st1 !! path = Some (take n data)
  /\ files st2 = files st1
  /\ skipped st2 = S (skipped st1)
  /\ downloaded st2 = downloaded st1
  /\ errors st2 = errors st1.
Proof.
  intros path st1 st2 Habsent Hres Hfault.
  assert (Hcut : files st1 !! path = Some (take n data)).
  { subst st1 path. unfold process_activity, write_file, filepath in *.
    rewrite Habsent, Hres, Hfault. simpl. apply lookup_insert_eq. }
  split; [exact Hcut|]. subst st2.
  rewrite (process_existing E' output_dir file_format total' i' a st1)
    by (unfold path in Hcut; rewrite Hcut; eauto).
  repeat split.
Qed.

(** A negative limit is not refused: it drops activities from the end of
    the listing, as the slice [activities[:limit]] does, and when it drops
    them all the run prints a summary of zeros and leaves the files. *)
Theorem negative_limit_drops_from_the_end (E : Env)
    (output_dir file_format : str) (limit : Z) (listed : list Activity)
    (fs : gmap str bytes) (u : unit) :
  login E = Ok u ->
  get_activities_by_date E = Ok listed ->
  listed <> [] ->
  (limit < 0)%Z ->
  let n := Z.to_nat (Z.of_nat (length listed) + limit) in
  let st := run_loop E output_dir file_format n 1 (take n listed)
              (init_state fs [MsgFound (length listed); MsgLimiting limit]) in
  length (take n listed) = n
  /\ download_activities E output_dir file_format (Some limit) fs
     = (files st, out st, Some (summary_of n st))
  /\ ((limit <= - Z.of_nat (length listed))%Z ->
      download_activities E output_dir file_format (Some limit) fs
      = (fs, [MsgFound (length listed); MsgLimiting limit],
         Some {| total_activities := 0; total_downloaded := 0;
                 total_skipped := 0; total_errors := 0 |})).
Proof.
  intros Hlogin Hlist Hne Hneg n st.
  assert (Happlies : limit_applies (Some limit) listed = true).
  { unfold limit_applies. apply andb_true_iff. split.
    - apply negb_true_iff, Z.eqb_neq. lia.
    - apply Z.ltb_lt. lia. }
  assert (Hcut : apply_limit (Some limit) listed = take n listed).
  { unfold apply_limit. rewrite Happlies. unfold slice_to.
    replace (0 <=? limit)%Z with false by (symmetry; apply Z.leb_gt; lia).
    reflexivity. }
  assert (Hlen : length (take n listed) = n).
  { rewrite length_take. subst n. lia. }
  assert (Hrun : download_activities E output_dir file_format (Some limit) fs
                 = (files st, out st, Some (summary_of n st))).
  { rewrite (download_activities_batch _ _ _ _ _ u listed) by auto.
    unfold run_batch. cbv zeta. cbn [fst snd default].
    rewrite Hcut, Happlies, Hlen. reflexivity. }
  repeat split; auto.
  intros Hall. rewrite Hrun. subst st.
  replace n with 0%nat by (subst n; lia). reflexivity.
Qed.

(** For a format other than [fit], what is saved is what the service sent:
    the payload is written as it is, also when it carries the ZIP signature,
    with no warning, and the download is counted. *)
Theorem other_formats_save_the_payload (E : Env)
    (output_dir file_format : str) (total i : nat) (a : Activity)
    (st : State) (payload : bytes) :
  let token := if bool_decide (lower file_format = lit "gpx") then GPX
               else if bool_decide (lower file_format = lit "tcx") then TCX
               else ORIGINAL in
  lower file_format <> lit "fit" ->
  files st !! filepath output_dir a file_format = None ->
  download_activity E (activityId a) token = Ok payload ->
  write_fault E (filepath output_dir a file_format) payload = NoFault ->
  process_activity E output_dir file_format total i a st
  = {| files := <[filepath output_dir a file_format := payload]> (files st);
       downloaded := S (downloaded st);
       skipped := skipped st;
       errors := errors st;
       out := out st
              ++ [MsgDownloading i total (name_of a) (take 10 (date_of a));
                  MsgSaved (filename a file_format)] |}.
Proof.
  intros token Hnotfit Habsent Hdl Hfault.
  apply (process_saves E output_dir file_format total i a st [] payload);
    auto.
  unfold resolve. subst token.
  repeat case_bool_decide; try congruence; now rewrite Hdl.
Qed.

(** Running again with nothing changed changes nothing: the second run
    leaves the files exactly as the first one left them and downloads
    nothing; every activity is skipped or is an error again, and there are
    no more errors than in the first run. *)
Theorem second_run_changes_nothing (E : Env) (output_dir file_format : str)
    (limit : option Z) (fs fs1 : gmap str bytes) (out1 : list Msg)
    (s1 : Summary) :
  download_activities E output_dir file_format limit fs
  = (fs1, out1, Some s1) ->
  exists out2 s2,
    download_activities E output_dir file_format limit fs1
    = (fs1, out2, Some s2)
    /\ total_activities s2 = total_activities s1
    /\ total_downloaded s2 = 0%nat
    /\ (total_skipped s2 + total_errors s2 = total_activities s1)%nat
    /\ (total_errors s2 <= total_errors s1)%nat.
Proof.
  unfold download_activities.
  destruct (login E) as [u|e]; [|discriminate].
  destruct (get_activities_by_date E) as [[|a0 listed]|e]; try discriminate.
  unfold run_batch. cbv zeta.
  set (acts := apply_limit limit (a0 :: listed)).
  set (printed := MsgFound (length (a0 :: listed)) :: _).
  intros Hrun. injection Hrun as Hfs Hout Hs. subst s1.
  pose proof (run_loop_settles E output_dir file_format (length acts) acts 1
                (init_state fs printed)) as Hsettled.
  pose proof (run_loop_errors_missing E output_dir file_format (length acts)
                acts 1 (init_state fs printed)) as Hmissing.
  cbv zeta in Hmissing. rewrite Hfs in Hsettled, Hmissing.
  destruct (run_loop_settled E output_dir file_format (length acts) acts 1
              (init_state fs1 printed) Hsettled) as (Hf & Hd & He & Hse).
  set (st2 := run_loop E output_dir file_format (length acts) 1 acts
                (init_state fs1 printed)) in *.
  exists (out st2), (summary_of (length acts) st2).
  split; [now rewrite Hf|].
  simpl in *. repeat split; lia.
Qed.

(** The progress lines of a run count the activities from 1 to the total
    of the summary, in order, each with that total. *)
Theorem progress_lines_count_up (E : Env) (output_dir file_format : str)
    (limit : option Z) (fs fs' : gmap str bytes) (printed : list Msg)
    (s : Summary) :
  download_activities E output_dir file_format limit fs
  = (fs', printed, Some s) ->
  omap progress printed
  = List.map (fun k => (k, total_activities s))
      (seq 1 (total_activities s)).
Proof.
  unfold download_activities.
  destruct (login E) as [u|e]; [|discriminate].
  destruct (get_activities_by_date E) as [[|a0 listed]|e]; try discriminate.
  unfold run_batch. cbv zeta. intros [= _ <- <-].
  set (acts := apply_limit limit (a0 :: listed)).
  set (printed0 := MsgFound _ :: _).
  destruct (run_loop_prints E output_dir file_format (length acts) acts 1
              (init_state fs printed0)) as (Hp & _).
  rewrite Hp. cbn [summary_of total_activities init_state out].
  subst printed0. now destruct (limit_applies limit (a0 :: listed)).
Qed.

(** The summary agrees with what was printed: as many downloads as lines
    for a saved file, as many skips as lines for a skipped one, as many
    errors as error lines. *)
Theorem summary_agrees_with_the_lines (E : Env)
    (output_dir file_format : str) (limit : option Z)
    (fs fs' : gmap str bytes) (printed : list Msg) (s : Summary) :
  download_activities E output_dir file_format limit fs
  = (fs', printed, Some s) ->
  lines is_saved printed = total_downloaded s
  /\ lines is_skipping printed = total_skipped s
  /\ lines is_error printed = total_errors s.
Proof.
  unfold download_activities.
  destruct (login E) as [u|e]; [|discriminate].
  destruct (get_activities_by_date E) as [[|a0 listed]|e]; try discriminate.
  unfold run_batch. cbv zeta. intros [= _ <- <-].
  set (acts := apply_limit limit (a0 :: listed)).
  set (printed0 := MsgFound _ :: _).
  destruct (run_loop_prints E output_dir file_format (length acts) acts 1
              (init_state fs printed0)) as (_ & Hk & Hs & He).
  cbn [summary_of total_downloaded total_skipped total_errors].
  cbn [init_state out skipped downloaded errors] in Hk, Hs, He.
  assert (Hnone : lines is_skipping printed0 = 0%nat
                  /\ lines is_saved printed0 = 0%nat
                  /\ lines is_error printed0 = 0%nat).
  { subst printed0. now destruct (limit_applies limit (a0 :: listed)). }
  lia.
Qed.

(** A run writes nowhere else than at the output directory joined with the
    file name of a listed activity, and writes there the bytes resolved for
    the activity, or their beginning when the write was cut. *)
Theorem writes_only_listed_files (E : Env) (output_dir file_format : str)
    (limit : option Z) (fs fs' : gmap str bytes) (printed : list Msg)
    (r : option Summary) (p : str) (b : bytes) :
  download_activities E output_dir file_format limit fs = (fs', printed, r) ->
  fs !! p = None ->
  fs' !! p = Some b ->
  exists listed a,
    get_activities_by_date E = Ok listed
    /\ In a listed
    /\ p = output_dir
           ++ (if bool_decide (output_dir = []) || endswith output_dir [47]
               then [] else [47])
           ++ filename a file_format
    /\ exists warn data n,
         resolve E file_format (activityId a) = (warn, Ok data)
         /\ b = take n data.
Proof.
  unfold download_activities.
  destruct (login E) as [u|e]; [|intros [= <- _ _]; congruence].
  destruct (get_activities_by_date E) as [[|a0 listed]|e];
    try (intros [= <- _ _]; congruence).
  unfold run_batch. cbv zeta. intros [= <- _ _] Habsent Hb.
  set (st0 := init_state fs _) in Hb.
  destruct (run_loop_writes E output_dir file_format _ _ _ st0 p b Habsent Hb)
    as (a & Hin & -> & Hdata).
  exists (a0 :: listed), a. split; [reflexivity|].
  split; [|split; [apply filepath_in_directory | exact Hdata]].
  destruct (apply_limit_prefix limit (a0 :: listed)) as [k Hk].
  rewrite Hk in Hin. apply list_elem_of_In.
  apply list_elem_of_In in Hin. now apply (subseteq_take k) in Hin.
Qed.

End Batch.

(** * The dates *)

Section Dates.
Context `{P : Platform}.

Lemma in_below (n x : N) : x < n -> In x (below n).
Proof.
  intros Hlt. unfold below. rewrite <- (N2Nat.id x).
  apply in_map, in_seq. lia.
Qed.

Lemma valid_date_bounds (d : date) :
  valid_date d = true ->
  1 <= year d <= 9999 /\ 1 <= month d <= 12
  /\ 1 <= day d <= days_in_month (year d) (month d).
Proof.
  unfold valid_date. rewrite !andb_true_iff, !N.leb_le. tauto.
Qed.

Lemma days_in_month_le (y m : N) : days_in_month y m <= 31.
Proof.
  unfold days_in_month.
  repeat match goal with
         | |- context [match ?x with _ => _ end] => destruct x
         end; lia.
Qed.

Lemma all_years_read_back : forallb year_reads_back (below 10000) = true.
Proof. vm_compute. reflexivity. Qed.

Lemma all_month_days_read_back :
  forallb (fun m => forallb (month_day_read_back m) (below 32)) (below 13)
  = true.
Proof. vm_compute. reflexivity. Qed.

Lemma ascii_digit_is_d (c : N) : ascii_digit c = true -> is_d c = true.
Proof.
  intros Hc. unfold is_d, decimal_value. rewrite Hc.
  unfold ascii_digit, in_range in Hc.
  apply andb_true_iff in Hc as [_ Hc]. apply N.leb_le in Hc.
  replace (c <? 128) with true by (symmetry; apply N.ltb_lt; lia).
  reflexivity.
Qed.

(** After the year, [regex_match] is [tail_matches] with the year added. *)
Lemma flat_map_with_year (ys : str) (l : list (str * str)) :
  flat_map (fun '(m, r1) =>
              match r1 with
              | 45 :: r2 =>
                  List.map (fun '(d, rest) => (ys, m, d, rest)) (match_d r2)
              | _ => []
              end) l
  = List.map (fun '(m, d, rest) => (ys, m, d, rest))
      (flat_map (fun '(m, r1) =>
                   match r1 with
                   | 45 :: r2 =>
                       List.map (fun '(d, rest) => (m, d, rest)) (match_d r2)
                   | _ => []
                   end) l).
Proof.
  induction l as [|[m r1] l IH]; [reflexivity|].
  cbn [flat_map]. rewrite map_app, IH. f_equal.
  destruct r1 as [|x r2]; [reflexivity|].
  destruct x as [|p]; [reflexivity|].
  do 6 (destruct p as [p|p|]; try reflexivity).
  rewrite map_map. apply map_ext. now intros [d rest].
Qed.

Lemma regex_match_tail (a b c e : N) (s : str) :
  is_d a = true -> is_d b = true -> is_d c = true -> is_d e = true ->
  regex_match (a :: b :: c :: e :: 45 :: s)
  = match head (tail_matches s) with
    | Some (m, d, rest) => Some ([a; b; c; e], m, d, rest)
    | None => None
    end.
Proof.
  intros Ha Hb Hc He. unfold regex_match, tail_matches.
  rewrite Ha, Hb, Hc, He. cbn [andb].
  rewrite flat_map_with_year.
  destruct (flat_map _ (match_m s)) as [|[[m d] rest] l]; reflexivity.
Qed.

(** The padded form of a valid date parses to the date. *)
Lemma strptime_isoformat (d : date) :
  valid_date d = true -> strptime (isoformat d) = Some d.
Proof.
  intros Hvalid.
  destruct (valid_date_bounds d Hvalid) as ([Hy1 Hy2] & [Hm1 Hm2] & [Hd1 Hd2]).
  destruct d as [y m dd]. cbn [year month day] in *.
  pose proof (days_in_month_le y m) as Hdim.
  pose proof all_years_read_back as Hy. rewrite forallb_forall in Hy.
  specialize (Hy y (in_below 10000 y ltac:(lia))).
  pose proof all_month_days_read_back as Hmd. rewrite forallb_forall in Hmd.
  specialize (Hmd m (in_below 13 m ltac:(lia))).
  rewrite forallb_forall in Hmd.
  specialize (Hmd dd (in_below 32 dd ltac:(lia))).
  unfold year_reads_back in Hy. unfold isoformat. cbn [year month day].
  destruct (zero_pad 4 y) as [|a [|b [|c [|e [|? ?]]]]]; try discriminate.
  rewrite !andb_true_iff in Hy.
  destruct Hy as [[[[[Ha Hb] Hc] He] Hint] _].
  unfold month_day_read_back in Hmd.
  replace (1 <=? m) with true in Hmd by (symmetry; apply N.leb_le; lia).
  replace (1 <=? dd) with true in Hmd by (symmetry; apply N.leb_le; lia).
  cbn [andb negb orb] in Hmd. rewrite !andb_true_iff in Hmd.
  destruct Hmd as [[[[Hhead Hmi] Hdi] _] _].
  apply bool_decide_eq_true_1 in Hhead.
  change (lit "-") with [45]. cbn [app].
  unfold strptime.
  rewrite regex_match_tail by now apply ascii_digit_is_d.
  rewrite Hhead.
  apply N.eqb_eq in Hint, Hmi, Hdi. rewrite Hint, Hmi, Hdi.
  unfold valid_date in Hvalid. cbn [year month day] in Hvalid.
  rewrite Hvalid. reflexivity.
Qed.

(** ** What the matcher accepts *)

Ltac split_ifs H :=
  repeat match type of H with
         | context [if ?b then _ else _] => destruct b
         end.

Ltac matched_pair :=
  match goal with
  | H : (_, _) = (_, _) |- _ => injection H as <- <-
  end.

(** A match of the month is one or two characters at the head of the
    string. *)
Lemma match_m_spec (s m r1 : str) :
  In (m, r1) (match_m s) ->
  s = m ++ r1 /\ (1 <= length m <= 2)%nat.
Proof.
  unfold match_m. intros Hin.
  destruct s as [|x [|c r]]; [destruct Hin| |].
  - destruct x as [|p]; [destruct Hin|].
    do 6 (try destruct p as [p|p|]); simpl in Hin; split_ifs Hin;
      simpl in Hin; intuition; try discriminate; matched_pair; simpl; auto.
  - destruct x as [|p]; [simpl in Hin; split_ifs Hin; simpl in Hin; tauto|].
    do 6 (try destruct p as [p|p|]); simpl in Hin; split_ifs Hin;
      simpl in Hin; intuition; try discriminate; matched_pair; simpl; auto.
Qed.

(** The same for a match of the day. *)
Lemma match_d_spec (s d rest : str) :
  In (d, rest) (match_d s) ->
  s = d ++ rest /\ (1 <= length d <= 2)%nat.
Proof.
  unfold match_d. intros Hin.
  destruct s as [|x [|c r]]; [destruct Hin| |].
  - destruct x as [|p]; [destruct Hin|].
    do 6 (try destruct p as [p|p|]); simpl in Hin; split_ifs Hin;
      simpl in Hin; intuition; try discriminate; matched_pair; simpl; auto.
  - destruct x as [|p]; [simpl in Hin; split_ifs Hin; simpl in Hin; tauto|].
    do 6 (try destruct p as [p|p|]); simpl in Hin; split_ifs Hin;
      simpl in Hin; intuition; try discriminate; matched_pair; simpl; auto.
Qed.

Lemma tail_matches_spec (s m d rest : str) :
  In (m, d, rest) (tail_matches s) ->
  s = m ++ 45 :: d ++ rest
  /\ (1 <= length m <= 2)%nat /\ (1 <= length d <= 2)%nat.
Proof.
  unfold tail_matches. intros Hin.
  apply in_flat_map in Hin as ([m' r1] & Hm & Hin).
  apply match_m_spec in Hm as [-> Hlm].
  destruct r1 as [|x r2]; [destruct Hin|].
  destruct x as [|p]; [destruct Hin|].
  do 6 (try destruct p as [p|p|]); try destruct Hin.
  apply in_map_iff in Hin as ([d' rest'] & [= -> -> ->] & Hd).
  apply match_d_spec in Hd as [-> Hld]. auto.
Qed.

(** A match of the whole pattern: four characters, a hyphen, the month, a
    hyphen, the day. *)
Lemma regex_match_spec (s y m d rest : str) :
  regex_match s = Some (y, m, d, rest) ->
  s = y ++ 45 :: m ++ 45 :: d ++ rest
  /\ length y = 4%nat
  /\ (1 <= length m <= 2)%nat /\ (1 <= length d <= 2)%nat.
Proof.
  intros Hmatch.
  destruct s as [|a [|b [|c [|e [|h r]]]]]; try discriminate Hmatch.
  destruct h as [|p]; [discriminate Hmatch|].
  do 6 (try destruct p as [p|p|]); try discriminate Hmatch.
  unfold regex_match in Hmatch.
  destruct (is_d a && is_d b && is_d c && is_d e) eqn:Hdigits;
    [|discriminate].
  rewrite !andb_true_iff in Hdigits.
  destruct Hdigits as [[[Ha Hb] Hc] He].
  pose proof (regex_match_tail a b c e r Ha Hb Hc He) as Htail.
  unfold regex_match in Htail. rewrite Ha, Hb, Hc, He in Htail.
  cbn [andb] in Htail. rewrite Htail in Hmatch.
  destruct (head (tail_matches r)) as [[[m' d'] rest']|] eqn:Hhead;
    [|discriminate].
  injection Hmatch as <- <- <- <-.
  apply head_Some in Hhead as [l Hl].
  destruct (tail_matches_spec r m' d' rest') as (-> & Hlm & Hld).
  { rewrite Hl. now left. }
  auto.
Qed.

(** ** Shapes of the padded fields *)

Lemma year_shape (y : N) :
  y <= 9999 ->
  length (zero_pad 4 y) = 4%nat
  /\ (1000 <= y -> str_of_N y = zero_pad 4 y).
Proof.
  intros Hy. pose proof all_years_read_back as Hall.
  rewrite forallb_forall in Hall.
  specialize (Hall y (in_below 10000 y ltac:(lia))).
  unfold year_reads_back in Hall.
  destruct (zero_pad 4 y) as [|a [|b [|c [|e [|? ?]]]]]; try discriminate.
  rewrite !andb_true_iff in Hall. destruct Hall as [_ Hunpadded].
  split; [reflexivity|]. intros Hbig.
  replace (y <? 1000) with false in Hunpadded
    by (symmetry; apply N.ltb_ge; lia).
  now apply bool_decide_eq_true_1 in Hunpadded.
Qed.

Lemma two_digit_shape (n : N) : 1 <= n <= 31 -> length (zero_pad 2 n) = 2%nat.
Proof.
  intros Hn. pose proof all_month_days_read_back as Hall.
  rewrite forallb_forall in Hall.
  specialize (Hall 1 (in_below 13 1 ltac:(lia))).
  rewrite forallb_forall in Hall.
  specialize (Hall n (in_below 32 n ltac:(lia))).
  unfold month_day_read_back in Hall.
  replace (1 <=? n) with true in Hall by (symmetry; apply N.leb_le; lia).
  cbn [N.leb andb negb orb] in Hall.
  change (1 <=? 1) with true in Hall. cbn [andb negb orb] in Hall.
  rewrite !andb_true_iff in Hall. destruct Hall as [_ Hlen].
  now apply Nat.eqb_eq in Hlen.
Qed.

Lemma isoformat_length (d : date) :
  valid_date d = true -> length (isoformat d) = 10%nat.
Proof.
  intros Hvalid.
  destruct (valid_date_bounds d Hvalid) as ([Hy1 Hy2] & [Hm1 Hm2] & [Hd1 Hd2]).
  pose proof (days_in_month_le (year d) (month d)).
  destruct (year_shape (year d) Hy2) as [Hly _].
  unfold isoformat. change (lit "-") with [45].
  rewrite !length_app, Hly, !two_digit_shape by lia. reflexivity.
Qed.

(** From the year 1000 on, or when the C library pads the year, the two
    renderings of the program are the padded ones. *)
Lemma renderings_are_padded (d : date) :
  valid_date d = true ->
  strftime_pads_year = true \/ 1000 <= year d ->
  strftime_iso d = isoformat d /\ strftime d = compact d.
Proof.
  intros Hvalid Hpad.
  destruct (valid_date_bounds d Hvalid) as ([_ Hy2] & _).
  destruct (year_shape (year d) Hy2) as [_ Hbig].
  unfold strftime_iso, isoformat, strftime, compact.
  destruct strftime_pads_year; [split; reflexivity|].
  destruct Hpad as [Hpad|Hpad]; [discriminate|].
  rewrite (Hbig Hpad). split; reflexivity.
Qed.

(** ** The dates of the command line and of the file names *)

(** [parse_date] accepts every date of the calendar written as
    [YYYY-MM-DD], and returns that date. *)
Theorem parse_date_accepts_iso_dates (d : date) :
  valid_date d = true -> parse_date (isoformat d) = inl d.
Proof.
  intros Hvalid. unfold parse_date. now rewrite strptime_isoformat.
Qed.

(** What [parse_date] accepts is a date of the calendar, written in eight to
    ten characters: a longer string, such as a date followed by a time, is
    refused.  From
    the year 1000 on, or when the C library pads the year, the string the
    listing receives for it is the padded form, which parses to the same
    date. *)
Theorem parse_date_result (s : str) (d : date) :
  parse_date s = inl d ->
  valid_date d = true
  /\ (8 <= length s <= 10)%nat
  /\ (strftime_pads_year = true \/ 1000 <= year d ->
      strftime_iso d = isoformat d
      /\ parse_date (strftime_iso d) = inl d).
Proof.
  unfold parse_date. destruct (strptime s) as [d'|] eqn:Hparse;
    [|discriminate].
  intros [= ->].
  assert (Hvalid : valid_date d = true /\ (8 <= length s <= 10)%nat).
  { unfold strptime in Hparse.
    destruct (regex_match s) as [[[[y m] dd] rest]|] eqn:Hmatch;
      [|discriminate].
    destruct rest; [|discriminate].
    apply regex_match_spec in Hmatch as (-> & Hly & Hlm & Hld).
    split.
    - unfold valid_date.
      destruct (_ && _) eqn:Hcheck in Hparse; [|discriminate].
      injection Hparse as <-. exact Hcheck.
    - rewrite length_app, Hly. cbn [length].
      rewrite length_app. cbn [length]. rewrite length_app. cbn [length].
      lia. }
  destruct Hvalid as [Hvalid Hlen]. repeat split; try tauto; try lia.
  - now apply renderings_are_padded.
  - destruct (renderings_are_padded d Hvalid H) as [-> _].
    now apply parse_date_accepts_iso_dates.
Qed.

(** An activity whose start time begins with a date of the calendar written
    as [YYYY-MM-DD] has that date in its file name; from the year 1000 on,
    or when the C library pads the year, the file name is the eight digits
    of the date, the identifier and the sanitized name, joined by
    underscores, and the extension. *)
Theorem iso_start_time_names_the_file (a : Activity) (d : date)
    (rest file_format : str) :
  valid_date d = true ->
  startTimeLocal a = Some (isoformat d ++ rest) ->
  date_str (date_of a) = strftime d
  /\ (strftime_pads_year = true \/ 1000 <= year d ->
      filename a file_format
      = compact d ++ lit "_" ++ str_of_Z (activityId a) ++ lit "_"
        ++ safe_name (name_of a) ++ lit "." ++ file_format).
Proof.
  intros Hvalid Hstart.
  assert (Hdate : date_str (date_of a) = strftime d).
  { unfold date_of, date_str. rewrite Hstart.
    change (default (lit "Unknown") (Some (isoformat d ++ rest)))
      with (isoformat d ++ rest).
    rewrite take_app_length' by (symmetry; now apply isoformat_length).
    now rewrite strptime_isoformat. }
  split; [exact Hdate|]. intros Hpad.
  unfold filename. rewrite Hdate.
  now destruct (renderings_are_padded d Hvalid Hpad) as [_ ->].
Qed.

End Dates.

(** * The claims on concrete inputs *)

#[local] Existing Instance ascii_platform.

(** C1 as stated fails: when the download of the only listed activity raises
    on both runs, the second run skips nothing and its total is 1. *)
Lemma C1_rerun_counterexample :
  ~ (forall (P : Platform) (E : Env) (output_dir file_format : str)
       (limit : option Z) (fs fs1 fs2 : gmap str bytes)
       (out1 out2 : list Msg) (s1 s2 : Summary),
       download_activities E output_dir file_format limit fs
       = (fs1, out1, Some s1) ->
       download_activities E output_dir file_format limit fs1
       = (fs2, out2, Some s2) ->
       total_downloaded s2 = 0%nat
       /\ total_skipped s2 = total_activities s2).
Proof.
  intros H.
  pose (E := faulty_env [lunch_ride] 102).
  pose (r := download_activities E (lit "out") (lit "gpx") None ∅).
  assert (Hrun : r = (∅, r.1.2,
                      Some {| total_activities := 1; total_downloaded := 0;
                              total_skipped := 0; total_errors := 1 |}))
    by (vm_compute; reflexivity).
  destruct (H ascii_platform E (lit "out") (lit "gpx") None ∅ ∅ ∅
              r.1.2 r.1.2 _ _ Hrun Hrun) as [_ Hskipped].
  discriminate Hskipped.
Qed.

(** C1, amended, on a listing of two activities that download well. *)
Lemma C1_rerun_witness :
  let E := good_env [morning_run; lunch_ride] in
  let r := download_activities E (lit "out") (lit "gpx") None ∅ in
  exists out2,
    download_activities E (lit "out") (lit "gpx") None r.1.1
    = (r.1.1, out2,
       Some {| total_activities := 2; total_downloaded := 0;
               total_skipped := 2; total_errors := 0 |}).
Proof.
  intros E r.
  apply (C1_rerun_after_clean_run E (lit "out") (lit "gpx") None ∅ r.1.1
           r.1.2
           {| total_activities := 2; total_downloaded := 2;
              total_skipped := 0; total_errors := 0 |}).
  - vm_compute. reflexivity.
  - reflexivity.
Defined.

(** C2 as stated fails: when a later member repeats the name of the first
    member that ends in [.fit], the bytes returned are those of the later
    member. *)
Lemma C2_zip_unwrap_counterexample :
  ~ (forall (P : Platform) (E : Env) (file_format : str) (id : Z)
       (payload : bytes) (pre post : list ZipInfo) (e : ZipInfo)
       (content : bytes),
       lower file_format = lit "fit" ->
       download_activity E id ORIGINAL = Ok payload ->
       take 2 payload = PK ->
       ZipFile E payload = Ok (pre ++ e :: post) ->
       Forall (fun x => is_fit_name (zi_filename x) = false) pre ->
       is_fit_name (zi_filename e) = true ->
       zi_read e = Ok content ->
       resolve E file_format id = ([], Ok content)).
Proof.
  intros H.
  specialize (H ascii_platform (zip_env twice_fit []) (lit "fit") 1%Z
                zip_payload []
                [ {| zi_filename := lit "activity.fit";
                     zi_read := Ok other_bytes |} ]
                {| zi_filename := lit "activity.fit";
                   zi_read := Ok fit_bytes |}
                fit_bytes eq_refl eq_refl eq_refl eq_refl
                (Forall_nil_2 _) eq_refl eq_refl).
  vm_compute in H. discriminate H.
Qed.

(** C2, amended, on an archive whose only member is [activity.fit]. *)
Lemma C2_zip_unwrap_witness :
  resolve (zip_env one_fit []) (lit "fit") 1%Z = ([], Ok fit_bytes).
Proof.
  apply (C2_zip_unwrap_first_fit (zip_env one_fit []) (lit "fit") 1%Z
           zip_payload [] []
           {| zi_filename := lit "activity.fit"; zi_read := Ok fit_bytes |}
           fit_bytes); try reflexivity; constructor.
Defined.

(** C3 on an archive whose only member is [metadata.json]. *)
Lemma C3_zip_without_fit_witness :
  let E := zip_env no_fit [morning_run] in
  let st := init_state ∅ [] in
  resolve E (lit "fit") 101%Z = ([MsgNoFitWarning], Ok zip_payload)
  /\ errors (process_activity E (lit "out") (lit "fit") 1 1 morning_run st)
     = 0%nat
  /\ downloaded (process_activity E (lit "out") (lit "fit") 1 1 morning_run st)
     = 1%nat.
Proof.
  intros E st.
  destruct (C3_zip_without_fit_falls_back E (lit "out") (lit "fit") 1 1
              morning_run st zip_payload no_fit) as [Hres Hstep];
    try reflexivity.
  - repeat constructor.
  - rewrite Hstep. split; [exact Hres | split; reflexivity].
Defined.

(** C4 on a payload that starts with [ab]. *)
Lemma C4_non_zip_passthrough_witness :
  resolve (good_env []) (lit "fit") 1%Z = ([], Ok three_bytes).
Proof.
  apply (C4_non_zip_passthrough (good_env []) (lit "fit") 1%Z three_bytes);
    try reflexivity.
  vm_compute. discriminate.
Defined.

(** C5 on a listing of ten activities with the limit 3: the activities 1, 2
    and 3 are downloaded, in this order, and the total is 3. *)
Lemma C5_limit_truncation_witness :
  exists fs printed,
    download_activities (good_env ten_activities) (lit "out") (lit "gpx")
      (Some 3%Z) ∅
    = (fs, printed,
       Some {| total_activities := 3; total_downloaded := 3;
               total_skipped := 0; total_errors := 0 |})
    /\ List.filter (fun m => match m with MsgSaved _ => true | _ => false end)
         printed
       = [MsgSaved (lit "20240305_1_Run.gpx");
          MsgSaved (lit "20240305_2_Run.gpx");
          MsgSaved (lit "20240305_3_Run.gpx")].
Proof.
  destruct (C5_limit_truncation (good_env ten_activities) (lit "out")
              (lit "gpx") 3%Z ten_activities ∅ tt)
    as (_ & _ & Hrun & _ & _); try reflexivity.
  do 2 eexists. split; [rewrite Hrun; reflexivity|].
  vm_compute. reflexivity.
Defined.

(** C6 on three activities where the download of the second raises. *)
Lemma C6_failure_isolation_witness :
  snd (run_batch (faulty_env [morning_run; lunch_ride; evening_walk] 102)
         (lit "out") (lit "gpx") None
         [morning_run; lunch_ride; evening_walk] ∅)
  = {| total_activities := 3; total_downloaded := 2;
       total_skipped := 0; total_errors := 1 |}.
Proof.
  apply (proj2 (C6_failure_isolation
                  (faulty_env [morning_run; lunch_ride; evening_walk] 102)
                  (lit "out") (lit "gpx"))
           morning_run lunch_ride evening_walk ∅ TransportError);
    try reflexivity; try (vm_compute; discriminate).
Defined.

(** C7 on the start time [not-a-date]. *)
Lemma C7_malformed_date_witness :
  startswith (filename undated (lit "gpx")) (lit "unknown_date_") = true
  /\ errors (process_activity (good_env [undated]) (lit "out") (lit "gpx")
               1 1 undated (init_state ∅ [])) = 0%nat.
Proof.
  destruct (C7_malformed_date_degrades (good_env [undated]) (lit "out")
              (lit "gpx") 1 1 undated [] (init_state ∅ []))
    as (Hname & _ & Herr & _); [reflexivity|].
  split; [exact Hname|]. rewrite Herr. reflexivity.
Defined.

(** C8 on a name with spaces at both ends, punctuation and spaces inside:
    the punctuation goes, the outer spaces go, the inner spaces become
    underscores. *)
Lemma C8_name_sanitization_witness :
  safe_name (lit "  Trail Run! (5k)  ") = lit "Trail_Run_5k"
  /\ filename trail_run (lit "gpx") = lit "20240305_106_Trail_Run_5k.gpx"
  /\ Forall (fun c => filename_char c = true)
       (filename trail_run (lit "gpx")).
Proof.
  destruct (C8_name_sanitization trail_run (lit "gpx"))
    as (_ & _ & Hchars); [repeat constructor|].
  split; [reflexivity | split; [reflexivity | exact Hchars]].
Defined.

(** C9 as stated fails: on a disk that fails after the first byte, the path
    that had no file holds that first byte after the failed write. *)
Lemma C9_write_atomicity_counterexample :
  ~ (forall (P : Platform) (E : Env) (output_dir file_format : str)
       (total i : nat) (a : Activity) (st : State) (warn : list Msg)
       (data : bytes),
       files st !! filepath output_dir a file_format = None ->
       resolve E file_format (activityId a) = (warn, Ok data) ->
       write_fault E (filepath output_dir a file_format) data <> NoFault ->
       files (process_activity E output_dir file_format total i a st)
         !! filepath output_dir a file_format
       = files st !! filepath output_dir a file_format).
Proof.
  intros H.
  specialize (H ascii_platform (full_disk_env [morning_run]) (lit "out")
                (lit "gpx") 1%nat 1%nat morning_run (init_state ∅ []) []
                three_bytes eq_refl eq_refl).
  assert (Hfault : write_fault (full_disk_env [morning_run])
                     (filepath (lit "out") morning_run (lit "gpx"))
                     three_bytes <> NoFault) by discriminate.
  specialize (H Hfault). vm_compute in H. discriminate H.
Qed.

(** C9, amended, on the same disk: one error, and the first byte at the
    path. *)
Lemma C9_write_failure_witness :
  let E := full_disk_env [morning_run] in
  let st' := process_activity E (lit "out") (lit "gpx") 1 1 morning_run
               (init_state ∅ []) in
  errors st' = 1%nat
  /\ downloaded st' = 0%nat
  /\ files st' !! filepath (lit "out") morning_run (lit "gpx")
     = Some ["a"%byte].
Proof.
  intros E st'.
  destruct (C9_write_failure_is_an_error E (lit "out") (lit "gpx") 1 1
              morning_run (init_state ∅ []) [] three_bytes)
    as (Herr & Hdl & _ & _ & Hfile); try reflexivity; [discriminate|].
  split; [exact Herr | split; [exact Hdl | exact Hfile]].
Defined.

(** * More properties on concrete inputs *)

(** Two activities, one listed twice, on an empty directory: two downloads
    and one skip make the total of three. *)
Lemma summary_counts_witness :
  (2 + 1 + 0)%nat = 3%nat
  /\ exists listed,
       get_activities_by_date
         (good_env [morning_run; lunch_ride; morning_run]) = Ok listed
       /\ 3%nat = length (apply_limit None listed)
       /\ (3 <= length listed)%nat.
Proof.
  pose (E := good_env [morning_run; lunch_ride; morning_run]).
  pose (r := download_activities E (lit "out") (lit "gpx") None ∅).
  apply (summary_counts_every_activity E (lit "out") (lit "gpx") None ∅
           r.1.1 r.1.2
           {| total_activities := 3; total_downloaded := 2;
              total_skipped := 1; total_errors := 0 |}).
  vm_compute. reflexivity.
Defined.

(** A file that was in the directory before the run is there after it. *)
Lemma existing_files_witness :
  let fs : gmap str bytes := {[ lit "out/notes.txt" := other_bytes ]} in
  let r := download_activities (good_env [morning_run]) (lit "out")
             (lit "gpx") None fs in
  r.1.1 !! lit "out/notes.txt" = Some other_bytes.
Proof.
  intros fs r.
  apply (existing_files_are_kept (good_env [morning_run]) (lit "out")
           (lit "gpx") None fs r.1.1 r.1.2 r.2).
  - unfold r. now destruct (download_activities _ _ _ _ _) as [[? ?] ?].
  - vm_compute. reflexivity.
Defined.

(** Two downloads in an empty directory leave two files. *)
Lemma downloads_are_new_files_witness :
  let E := good_env [morning_run; lunch_ride; morning_run] in
  let r := download_activities E (lit "out") (lit "gpx") None ∅ in
  (size (∅ : gmap str bytes) + 2 <= size r.1.1)%nat
  /\ ((forall p d, write_fault E p d = NoFault) ->
      size r.1.1 = (size (∅ : gmap str bytes) + 2)%nat).
Proof.
  intros E r.
  apply (downloads_are_new_files E (lit "out") (lit "gpx") None ∅ r.1.1
           r.1.2
           {| total_activities := 3; total_downloaded := 2;
              total_skipped := 1; total_errors := 0 |}).
  vm_compute. reflexivity.
Defined.

(** The morning run and the lunch ride have different paths. *)
Lemma distinct_ids_witness :
  filepath (lit "out") morning_run (lit "gpx")
  <> filepath (lit "out") lunch_ride (lit "gpx").
Proof.
  apply distinct_ids_distinct_paths. vm_compute. discriminate.
Defined.

(** Three activities on an empty directory with a service that works: three
    downloads. *)
Lemma clean_first_run_witness :
  let listed := [morning_run; lunch_ride; evening_walk] in
  exists fs' printed,
    download_activities (good_env listed) (lit "out") (lit "gpx") None ∅
    = (fs', printed,
       Some {| total_activities := 3; total_downloaded := 3;
               total_skipped := 0; total_errors := 0 |})
    /\ Forall (fun a => is_Some (fs' !! filepath (lit "out") a (lit "gpx")))
              listed.
Proof.
  intros listed.
  apply (clean_first_run_downloads_all (good_env listed) (lit "out")
           (lit "gpx") None listed ∅ tt); try reflexivity.
  - discriminate.
  - apply (bool_decide_unpack _). vm_compute. exact I.
  - repeat constructor.
  - repeat constructor.
Defined.

(** A payload with the ZIP signature that does not open. *)
Lemma unreadable_archive_witness :
  let st := process_activity (corrupt_zip_env [morning_run]) (lit "out")
              (lit "fit") 1 1 morning_run (init_state ∅ []) in
  files st = ∅ /\ errors st = 1%nat /\ downloaded st = 0%nat.
Proof.
  intros st. subst st.
  rewrite (unreadable_archive_is_an_error (corrupt_zip_env [morning_run])
             (lit "out") (lit "fit") 1 1 morning_run (init_state ∅ [])
             zip_payload BadZipFile); try reflexivity.
  - repeat split.
  - now left.
Defined.

(** A write cut after one byte, then a run with a disk that works: the one
    byte stays. *)
Lemma truncated_file_witness :
  let st1 := process_activity (full_disk_env [morning_run]) (lit "out")
               (lit "gpx") 1 1 morning_run (init_state ∅ []) in
  let st2 := process_activity (good_env [morning_run]) (lit "out")
               (lit "gpx") 1 1 morning_run st1 in
  files st1 !! filepath (lit "out") morning_run (lit "gpx")
  = Some ["a"%byte]
  /\ files st2 = files st1
  /\ skipped st2 = S (skipped st1)
  /\ downloaded st2 = downloaded st1
  /\ errors st2 = errors st1.
Proof.
  apply (truncated_file_is_never_repaired (full_disk_env [morning_run])
           (good_env [morning_run]) (lit "out") (lit "gpx") 1 1 1 1
           morning_run (init_state ∅ []) [] three_bytes 1);
    reflexivity.
Defined.

(** Ten activities and the limit -7: the first three are downloaded. *)
Lemma negative_limit_witness :
  exists fs printed,
    download_activities (good_env ten_activities) (lit "out") (lit "gpx")
      (Some (-7)%Z) ∅
    = (fs, printed,
       Some {| total_activities := 3; total_downloaded := 3;
               total_skipped := 0; total_errors := 0 |}).
Proof.
  destruct (negative_limit_drops_from_the_end (good_env ten_activities)
              (lit "out") (lit "gpx") (-7)%Z ten_activities ∅ tt)
    as (_ & Hrun & _); try reflexivity; [discriminate|].
  do 2 eexists. rewrite Hrun. reflexivity.
Defined.

(** The format [original] saves a payload with the ZIP signature as it is,
    though the archive holds a [.fit] member. *)
Lemma other_formats_witness :
  let st := process_activity (zip_env one_fit [morning_run]) (lit "out")
              (lit "original") 1 1 morning_run (init_state ∅ []) in
  files st !! filepath (lit "out") morning_run (lit "original")
  = Some zip_payload
  /\ downloaded st = 1%nat.
Proof.
  intros st. subst st.
  rewrite (other_formats_save_the_payload (zip_env one_fit [morning_run])
             (lit "out") (lit "original") 1 1 morning_run (init_state ∅ [])
             zip_payload); try reflexivity.
  - split; [apply lookup_insert_eq | reflexivity].
  - vm_compute. discriminate.
Defined.

(** A run where the download of the lunch ride raises, then the same run
    again: nothing is downloaded, the two files are skipped, the lunch ride
    is an error again. *)
Lemma second_run_witness :
  let E := faulty_env [morning_run; lunch_ride; evening_walk] 102 in
  let r := download_activities E (lit "out") (lit "gpx") None ∅ in
  exists out2 s2,
    download_activities E (lit "out") (lit "gpx") None r.1.1
    = (r.1.1, out2, Some s2)
    /\ total_activities s2 = 3%nat
    /\ total_downloaded s2 = 0%nat
    /\ (total_skipped s2 + total_errors s2 = 3)%nat
    /\ (total_errors s2 <= 1)%nat.
Proof.
  intros E r.
  apply (second_run_changes_nothing E (lit "out") (lit "gpx") None ∅ r.1.1
           r.1.2
           {| total_activities := 3; total_downloaded := 2;
              total_skipped := 0; total_errors := 1 |}).
  vm_compute. reflexivity.
Defined.

(** The 29th of February 2024. *)
Lemma parse_date_accepts_witness :
  parse_date (lit "2024-02-29") = inl leap_day.
Proof.
  apply (parse_date_accepts_iso_dates leap_day). reflexivity.
Defined.

(** The same day written [2024-2-29]: accepted, and passed to the listing as
    [2024-02-29]. *)
Lemma parse_date_result_witness :
  valid_date leap_day = true
  /\ (8 <= length (lit "2024-2-29") <= 10)%nat
  /\ strftime_iso leap_day = lit "2024-02-29".
Proof.
  destruct (parse_date_result (lit "2024-2-29") leap_day eq_refl)
    as (Hvalid & Hlen & Hiso).
  destruct (Hiso (or_introl eq_refl)) as [Hstr _].
  split; [exact Hvalid | split; [exact Hlen | exact Hstr]].
Defined.

(** A run on the 29th of February 2024 at ten. *)
Lemma iso_start_time_witness :
  filename leap_run (lit "gpx") = lit "20240229_105_Leap_Run.gpx".
Proof.
  destruct (iso_start_time_names_the_file leap_run leap_day (lit " 10:00:00")
              (lit "gpx") eq_refl eq_refl) as [_ Hname].
  rewrite (Hname (or_introl eq_refl)). reflexivity.
Defined.

(** The three progress lines of a run over three activities. *)
Lemma progress_lines_witness :
  let E := faulty_env [morning_run; lunch_ride; evening_walk] 102 in
  let r := download_activities E (lit "out") (lit "gpx") None ∅ in
  omap progress r.1.2 = [(1, 3); (2, 3); (3, 3)]%nat.
Proof.
  intros E r.
  apply (progress_lines_count_up E (lit "out") (lit "gpx") None ∅ r.1.1
           r.1.2
           {| total_activities := 3; total_downloaded := 2;
              total_skipped := 0; total_errors := 1 |}).
  vm_compute. reflexivity.
Defined.

(** Two saved files and one error line for the same run. *)
Lemma summary_agrees_witness :
  let E := faulty_env [morning_run; lunch_ride; evening_walk] 102 in
  let r := download_activities E (lit "out") (lit "gpx") None ∅ in
  lines is_saved r.1.2 = 2%nat
  /\ lines is_skipping r.1.2 = 0%nat
  /\ lines is_error r.1.2 = 1%nat.
Proof.
  intros E r.
  apply (summary_agrees_with_the_lines E (lit "out") (lit "gpx") None ∅
           r.1.1 r.1.2
           {| total_activities := 3; total_downloaded := 2;
              total_skipped := 0; total_errors := 1 |}).
  vm_compute. reflexivity.
Defined.

(** The file of the morning run after a run on an empty directory. *)
Lemma writes_only_listed_witness :
  let E := good_env [morning_run] in
  let r := download_activities E (lit "out") (lit "gpx") None ∅ in
  exists listed a,
    get_activities_by_date E = Ok listed
    /\ In a listed
    /\ lit "out/20240305_101_Morning_Run.gpx"
       = lit "out"
         ++ (if bool_decide (lit "out" = []) || endswith (lit "out") [47]
             then [] else [47])
         ++ filename a (lit "gpx")
    /\ exists warn data n,
         resolve E (lit "gpx") (activityId a) = (warn, Ok data)
         /\ three_bytes = take n data.
Proof.
  intros E r.
  apply (writes_only_listed_files E (lit "out") (lit "gpx") None ∅ r.1.1
           r.1.2 r.2 (lit "out/20240305_101_Morning_Run.gpx") three_bytes).
  - unfold r. now destruct (download_activities _ _ _ _ _) as [[? ?] ?].
  - reflexivity.
  - vm_compute. reflexivity.
Defined.
